(** * Agent lifecycle test suite: configuration model and lifecycle orchestrator

    A shallow embedding of the data-driven part of the Playwright suite:
    - [agent-test-configs.ts]: [DEFAULT_CONFIG], [createDefaultGetAgentName],
      [AGENT_CONFIGS] and the defaulting map [AGENT_TEST_CONFIGS];
    - [agents.page.ts]: the page-object methods of [AgentsPage] that the
      lifecycle uses;
    - [generic-agent-lifecycle.spec.ts]: the generic lifecycle test body.

    The test code is a client of two things it does not own: the browser
    automation library and the remote UI.  Both are kept abstract as a
    [provider]; the test code itself is embedded as programs over the calls
    it awaits. *)

From Stdlib Require Import Ascii String.
From stdpp Require Import gmap strings list fin_maps pretty.

Open Scope string_scope.

(** ** JavaScript values

    Strings are sequences of code units; the model keeps the code units below
    256, one [ascii] each. *)

Inductive data : Type :=
| Undefined
| Str (s : string).

Global Instance data_eq_dec : EqDecision data.
Proof. solve_decision. Defined.

(** Template-literal interpolation [`${d}`]. *)
Definition to_string (d : data) : string :=
  match d with
  | Undefined => "undefined"
  | Str s => s
  end.

(** Exceptions that reach the test runner. *)
Inductive exn : Type :=
| TypeError
| SyntaxError
| TimeoutError
| AssertionError
| Error (message : string).

Inductive outcome (A : Type) : Type :=
| Ok (a : A)
| Raise (e : exn).
Arguments Ok {A} a.
Arguments Raise {A} e.

(** ** Locators

    The locator expressions the page object builds.  They are data: the
    provider resolves them against the page. *)

Inductive text_pattern : Type :=
| Text (s : data)
| RegExp (source flags : string).

Inductive locator : Type :=
| Locator (selector : string)
| GetByRole (role : string)
| GetByRoleName (role : string) (name : data) (exact : bool)
| GetByPlaceholder (text : string)
| GetByTestId (id : string)
| Within (parent child : locator)
| FilterHasText (l : locator) (p : text_pattern)
| FilterHas (l inner : locator)
| LocOr (l1 l2 : locator)
| First (l : locator)
| Last (l : locator).

Inductive element_state : Type := visible | hidden.
Inductive load_state : Type := networkidle | domcontentloaded.

(** ** Calls made by the test code

    A [call] goes to the browser automation library or to the JavaScript
    runtime; [answer c] is the type of what it resolves to. *)

Inductive call : Type :=
| Click (l : locator)
| Fill (l : locator) (text : data)
| WaitFor (l : locator) (s : element_state) (timeout : option N)
| IsChecked (l : locator)
| WaitForLoadState (s : load_state)
| WaitForURL (glob : string) (timeout : option N)
| Reload
(** [expect(l).toBeVisible({timeout})] and its siblings *)
| ExpectToBeVisible (l : locator) (timeout : N)
| ExpectToBeEnabled (l : locator) (timeout : N)
| ExpectToHaveCount (l : locator) (count : nat) (timeout : N)
(** [new RegExp(source, flags)] *)
| NewRegExp (source flags : string)
(** [page.waitForResponse(...)]: starts listening and hands back a promise *)
| WaitForResponse (url_part method : string)
(** awaiting that promise and reading [response.status()] *)
| ResponseStatus
(** one character from the random source *)
| RandomChar.

Definition answer (c : call) : Type :=
  match c with
  | IsChecked _ => bool
  | ResponseStatus => N
  | RandomChar => ascii
  | _ => unit
  end.

Global Instance text_pattern_eq_dec : EqDecision text_pattern.
Proof. solve_decision. Defined.
Global Instance locator_eq_dec : EqDecision locator.
Proof. solve_decision. Defined.
Global Instance element_state_eq_dec : EqDecision element_state.
Proof. solve_decision. Defined.
Global Instance load_state_eq_dec : EqDecision load_state.
Proof. solve_decision. Defined.
Global Instance call_eq_dec : EqDecision call.
Proof. solve_decision. Defined.

(** [test.step] boundaries, recorded in the trace. *)
Inductive marker : Type :=
| StepBegin (title : string)
| StepEnd (title : string).

(** ** Programs: the test code as a tree of calls *)

Inductive prog (A : Type) : Type :=
| Ret (a : A)
| Throw (e : exn)
| Await (c : call) (k : answer c → prog A)
| Mark (m : marker) (k : prog A).
Arguments Ret {A} a.
Arguments Throw {A} e.
Arguments Await {A} c k.
Arguments Mark {A} m k.

Fixpoint bind {A B : Type} (p : prog A) (f : A → prog B) : prog B :=
  match p with
  | Ret a => f a
  | Throw e => Throw e
  | Await c k => Await c (λ x, bind (k x) f)
  | Mark m k => Mark m (bind k f)
  end.

Global Instance prog_ret : MRet prog := @Ret.
Global Instance prog_bind : MBind prog := λ A B f p, bind p f.

(** [await c]: one call, awaited. *)
Definition await (c : call) : prog (answer c) := Await c Ret.

(** ** The name generator *)

(** Code units matched by [\s] (below 256): TAB, LF, VT, FF, CR, SP, NBSP. *)
Definition is_whitespace (c : ascii) : bool :=
  let n := N_of_ascii c in
  ((9 <=? n) && (n <=? 13) || (n =? 32) || (n =? 160))%N.

(** [s.replace(/\s+/g, '')]: every maximal run of whitespace is replaced by
    the empty string, so every whitespace code unit is dropped. *)
Fixpoint remove_whitespace (s : string) : string :=
  match s with
  | EmptyString => EmptyString
  | String c r =>
      if is_whitespace c then remove_whitespace r
      else String c (remove_whitespace r)
  end.

(** Modelled from the spec: [generateRandString] lives in [src/test-helpers],
    which is not among the sources.  The spec (4.1) asks for a suffix of the
    requested length drawn from a random source; the model draws [n]
    characters, one [RandomChar] call each. *)
Fixpoint generateRandString (n : nat) : prog string :=
  match n with
  | O => Ret EmptyString
  | S k =>
      c ← await RandomChar;
      r ← generateRandString k;
      Ret (String c r)
  end.

(** [agentDisplayName.replace(...)]: a method call on the display name, which
    only a string supports. *)
Definition replace_whitespace (agentDisplayName : data) : prog string :=
  match agentDisplayName with
  | Str s => Ret (remove_whitespace s)
  | Undefined => Throw TypeError
  end.

Definition createDefaultGetAgentName (agentDisplayName : data) : prog string :=
  prefix ← replace_whitespace agentDisplayName;
  suffix ← generateRandString 8;
  Ret (prefix +:+ "_" +:+ suffix).

(** ** Configuration objects *)

(** What a hook reads of the configuration it is handed: its fields as data. *)
Definition hook : Type := string → (string → data) → prog unit.

Inductive value : Type :=
| Data (d : data)
| NameFn (f : prog string)
| HookFn (h : hook).

(** An object is a finite map from property names to values; a property
    can be present with the value [undefined]. *)
Abbreviation obj := (gmap string value).

(** Property read [o.k]. *)
Definition get (o : obj) (k : string) : value :=
  default (Data Undefined) (o !! k).

(** The fields of an object as a hook sees them. *)
Definition fields (o : obj) (k : string) : data :=
  match get o k with
  | Data d => d
  | _ => Undefined
  end.

Definition truthy (v : value) : bool :=
  match v with
  | Data Undefined => false
  | Data (Str s) => negb (String.eqb s "")
  | _ => true
  end.

(** [a || b] *)
Definition or_else (a b : value) : value := if truthy a then a else b.

(** [{...target, ...source}]: own properties of [source] win. *)
Definition spread (target source : obj) : obj := source ∪ target.

Definition DEFAULT_CONFIG : obj :=
  <["user" := Data (Str "qualityguild.advertiser")]>
  (<["appID" := Data (Str "android.non.organic.regular")]>
  (<["slackChannel" := Data (Str "rnd-arch-data-availability-poc")]>
  (<["initialSchedule" := Data (Str "Daily at 6:00 PM")]>
  (<["updatedSchedule" := Data (Str "Daily at 12:00 PM")]> ∅)))).

Definition default_fields : list string :=
  ["user"; "appID"; "slackChannel"; "initialSchedule"; "updatedSchedule"].

(** The callback of [AGENT_CONFIGS.map(...)]. *)
Definition apply_defaults (config : obj) : obj :=
  <["getAgentName" :=
      or_else (get config "getAgentName")
        (NameFn (createDefaultGetAgentName (fields config "agentDisplayName")))]>
  (spread DEFAULT_CONFIG config).

Definition AGENT_TEST_CONFIGS_of (configs : list obj) : list obj :=
  apply_defaults <$> configs.

(** A call [f()] of a property value. *)
Definition call_name (f : value) : prog string :=
  match f with
  | NameFn body => body
  | _ => Throw TypeError
  end.

Definition call_hook (f : value) (agentName : string) (config : obj) : prog unit :=
  match f with
  | HookFn body => body agentName (fields config)
  | _ => Throw TypeError
  end.

(** ** Patterns

    [new RegExp(source)] for sources of the shape [^body$] whose body holds
    only ordinary characters and [.] is interpreted here; every other
    pattern is left to the provider's engine. *)

Definition syntax_characters : list ascii :=
  list_ascii_of_string "^$\.*+?()[]{}|".

Definition is_syntax_character (c : ascii) : bool :=
  bool_decide (c ∈ syntax_characters).

(** LF and CR, which [.] does not match. *)
Definition is_line_terminator (c : ascii) : bool :=
  let n := N_of_ascii c in ((n =? 10) || (n =? 13))%N.

Inductive atom : Type :=
| Lit (c : ascii)
| AnyChar.

Fixpoint parse_body (s : string) : option (list atom) :=
  match s with
  | EmptyString => None
  | String c r =>
      if Ascii.eqb c "$" then (if String.eqb r "" then Some [] else None)
      else if Ascii.eqb c "." then cons AnyChar <$> parse_body r
      else if is_syntax_character c then None
      else cons (Lit c) <$> parse_body r
  end.

Definition parse_anchored (source : string) : option (list atom) :=
  match source with
  | String c r => if Ascii.eqb c "^" then parse_body r else None
  | EmptyString => None
  end.

Fixpoint matches (p : list atom) (t : string) : bool :=
  match p, t with
  | [], EmptyString => true
  | Lit c :: p', String d t' => Ascii.eqb c d && matches p' t'
  | AnyChar :: p', String d t' => negb (is_line_terminator d) && matches p' t'
  | _, _ => false
  end.

(** ** The provider: browser automation library plus remote UI *)

Record element : Type := { text : string; shown : bool }.

Record provider : Type := {
  world : Type;
  (** what a locator designates on the page, in document order *)
  query : world → locator → list element;
  (** how page and remote system move while a call is pending *)
  advance : call → world → world;
  (** whether an interaction completes within its timeout, and its result *)
  reply : ∀ c : call, world → outcome (answer c);
  random_char : world → ascii;
  (** patterns outside the interpreted fragment; [None] is a syntax error *)
  regexp_engine : string → string → option (string → bool);
}.

Section Run.
Context (P : provider).

Definition regexp_valid (source flags : string) : bool :=
  match flags, parse_anchored source with
  | EmptyString, Some _ => true
  | _, _ => bool_decide (is_Some (P.(regexp_engine) source flags))
  end.

(** [re.test(t)] *)
Definition regexp_test (source flags : string) (t : string) : bool :=
  match flags, parse_anchored source with
  | EmptyString, Some p => matches p t
  | _, _ =>
      match P.(regexp_engine) source flags with
      | Some f => f t
      | None => false
      end
  end.

(** Resolution of a locator: [filter({hasText: re})], [first()] and [last()]
    are computed, the rest is the provider's. *)
Fixpoint resolve (w : P.(world)) (l : locator) : list element :=
  match l with
  | FilterHasText l' (RegExp source flags) =>
      filter (λ e, regexp_test source flags e.(text) = true) (resolve w l')
  | First l' => take 1 (resolve w l')
  | Last l' => option_list (last (resolve w l'))
  | _ => P.(query) w l
  end.

Definition check (b : bool) : outcome unit :=
  if b then Ok tt else Raise AssertionError.

(** [expect(l).toBeVisible()]: [l] designates one element, and it is
    visible. *)
Definition to_be_visible (es : list element) : bool :=
  match es with
  | [e] => e.(shown)
  | _ => false
  end.

(** How a call settles in the world reached while it was pending. *)
Definition settle (c : call) (w : P.(world)) : outcome (answer c) :=
  match c return outcome (answer c) → outcome (answer c) with
  | ExpectToBeVisible l _ => λ _, check (to_be_visible (resolve w l))
  | ExpectToHaveCount l n _ => λ _, check (Nat.eqb (length (resolve w l)) n)
  | NewRegExp source flags => λ _,
      if regexp_valid source flags then Ok tt else Raise SyntaxError
  | WaitForResponse _ _ => λ _, Ok tt
  | RandomChar => λ _, Ok (P.(random_char) w)
  | _ => λ r, r
  end (P.(reply) c w).

Inductive event : Type :=
| Called (c : call) (r : outcome (answer c)) (w : P.(world))
| Marked (m : marker).

Record result (A : Type) : Type := {
  returned : outcome A;
  final : P.(world);
  trace : list event;
}.
Arguments returned {A} r.
Arguments final {A} r.
Arguments trace {A} r.

Definition logged {A : Type} (e : event) (r : result A) : result A :=
  {| returned := r.(returned); final := r.(final); trace := e :: r.(trace) |}.

Fixpoint run {A : Type} (p : prog A) (w : P.(world)) : result A :=
  match p with
  | Ret a => {| returned := Ok a; final := w; trace := [] |}
  | Throw e => {| returned := Raise e; final := w; trace := [] |}
  | Await c k =>
      let w' := P.(advance) c w in
      match settle c w' with
      | Ok x => logged (Called c (Ok x) w') (run (k x) w')
      | Raise e =>
          {| returned := Raise e; final := w';
             trace := [Called c (Raise e) w'] |}
      end
  | Mark m k => logged (Marked m) (run k w)
  end.
End Run.

Arguments settle : simpl never.
Arguments Called {P} c r w.
Arguments Marked {P} m.
Arguments returned {P A} r.
Arguments final {P A} r.
Arguments trace {P A} r.

(** ** The page object [AgentsPage] *)

Module AgentsPage.

(** The double-quote character of the selectors. *)
Definition dquote : string := String (ascii_of_N 34) EmptyString.

Definition button (name : string) : locator :=
  GetByRoleName "button" (Str name) false.

Definition schedule_buttons : text_pattern :=
  RegExp "select Monitoring Schedule|Daily at|Weekly on|Monthly on|No schedule" "i".

(** Locators built by the constructor. *)
Definition agentNameTextField : locator := GetByPlaceholder "Enter agent name.".
Definition appSelectButton : locator := button "Select app".
Definition scheduleSelect : locator :=
  First (FilterHasText (GetByRole "button") schedule_buttons).
Definition slackChannelTextField : locator := GetByPlaceholder "Enter channel name".
Definition activateAgentButton : locator := button "Deploy Agent".

Definition cards : locator :=
  Locator ("[class*=" +:+ dquote +:+ "MuiPaper-root" +:+ dquote +:+ "]").

(** [`^${agentName}$`] *)
Definition exact_source (agentName : string) : string :=
  "^" +:+ agentName +:+ "$".

(** [new RegExp(`^${agentName}$`)]: the constructor runs, then the pattern
    is used in a locator. *)
Definition exact_pattern (agentName : string) : prog text_pattern :=
  await (NewRegExp (exact_source agentName) "");;
  Ret (RegExp (exact_source agentName) "").

(** The paragraphs of the agent cards whose text matches the name. *)
Definition agentNameLocator (agentName : string) : locator :=
  FilterHasText (Within cards (GetByRole "paragraph"))
    (RegExp (exact_source agentName) "").

(** The agent card whose name paragraph matches the name. *)
Definition agentCard (agentName : string) : locator :=
  FilterHas cards
    (FilterHasText (GetByRole "paragraph") (RegExp (exact_source agentName) "")).

(** The three-dots menu button of a card. *)
Definition menuButton (card : locator) : locator :=
  Last (FilterHas (Within card (Locator "button")) (Locator "svg")).

Definition menuItem (source : string) : locator :=
  First (FilterHasText (GetByRole "menuitem") (RegExp source "i")).

Definition scheduleOption (schedule : data) : locator :=
  First (LocOr (LocOr (GetByRoleName "menuitem" schedule false)
                      (GetByRoleName "option" schedule false))
               (GetByRoleName "button" schedule true)).

Definition selectAgent (agentDisplayName : data) : prog unit :=
  let agentCard :=
    FilterHas
      (FilterHas cards
         (FilterHasText (GetByRole "paragraph") (Text agentDisplayName)))
      (button "Deploy Agent") in
  await (WaitFor (First agentCard) visible None);;
  await (Click (Within (First agentCard) (button "Deploy Agent"))).

Definition setAgentName (agentName : string) : prog unit :=
  await (Click agentNameTextField);;
  await (Fill agentNameTextField (Str agentName)).

Definition selectApp (appId : data) : prog unit :=
  let appCheckbox := GetByRoleName "checkbox" appId false in
  await (Click appSelectButton);;
  await (WaitFor appCheckbox visible None);;
  await (Click appCheckbox);;
  await (Click (Locator "body"));;
  await (WaitFor appCheckbox hidden None).

Definition verifyAppSelected (appId : data) : prog unit :=
  let selectedIndicator :=
    LocOr (Locator "text=1 selected")
      (First (Locator ("span:has-text(" +:+ dquote +:+ to_string appId
                         +:+ dquote +:+ ")"))) in
  await (WaitFor selectedIndicator visible None).

Definition setSchedule (schedule : data) : prog unit :=
  await (WaitFor scheduleSelect visible None);;
  await (Click scheduleSelect);;
  await (WaitForLoadState domcontentloaded);;
  await (WaitFor (scheduleOption schedule) visible None);;
  await (Click (scheduleOption schedule));;
  await (WaitForLoadState networkidle).

Definition enableSlack : prog unit :=
  let slackCard := FilterHasText (Locator ".MuiCardContent-root") (Text (Str "Slack")) in
  let slackCheckboxInput := Within slackCard (GetByTestId "checkbox") in
  let slackCheckboxWrapper := Within slackCard (Locator ".MuiCheckbox-root") in
  isChecked ← await (IsChecked slackCheckboxInput);
  if negb isChecked then
    await (Click slackCheckboxWrapper);;
    await (WaitForLoadState networkidle)
  else Ret tt.

Definition setSlackChannel (channelName : data) : prog unit :=
  enableSlack;;
  await (WaitFor slackChannelTextField visible (Some 30000%N));;
  await (ExpectToBeEnabled slackChannelTextField 10000);;
  await (Click slackChannelTextField);;
  await (Fill slackChannelTextField channelName);;
  await (WaitForLoadState networkidle).

Definition activateAgent : prog unit :=
  await (Click activateAgentButton);;
  await (WaitForURL "**/agents-client/overview" (Some 90000%N));;
  await (WaitForLoadState networkidle).

Definition waitForPageLoad : prog unit :=
  await (WaitForLoadState networkidle).

Definition expectAgentVisible (agentName : string) : prog unit :=
  waitForPageLoad;;
  exact_pattern agentName;;
  await (ExpectToBeVisible (First (agentNameLocator agentName)) 15000).

Definition refreshAndExpectAgentVisible (agentName : string) : prog unit :=
  await Reload;;
  waitForPageLoad;;
  expectAgentVisible agentName.

Definition editAgent (agentName : string) : prog unit :=
  exact_pattern agentName;;
  await (Click (menuButton (agentCard agentName)));;
  await (WaitFor (menuItem "edit") visible None);;
  await (Click (menuItem "edit"));;
  waitForPageLoad.

Definition updateSchedule (newSchedule : data) : prog unit :=
  let scheduleButton := First (FilterHasText (GetByRole "button") schedule_buttons) in
  await (Click scheduleButton);;
  await (WaitForLoadState domcontentloaded);;
  await (WaitFor (scheduleOption newSchedule) visible None);;
  await (Click (scheduleOption newSchedule));;
  await (WaitForLoadState networkidle).

Definition saveChanges : prog unit :=
  let saveButton :=
    LocOr (LocOr (LocOr (button "Save settings") (button "Update Agent"))
                 (button "Deploy Agent"))
          (Locator ("[type=" +:+ dquote +:+ "submit" +:+ dquote +:+ "]")) in
  await (Click saveButton);;
  await (WaitForLoadState networkidle);;
  await (WaitForURL "**/agents-client/overview" None).

Definition expectAgentSchedule (agentName : string) (expectedSchedule : data)
  : prog unit :=
  waitForPageLoad;;
  exact_pattern agentName;;
  let scheduleLocator :=
    Within (agentCard agentName) (Locator ("text=" +:+ to_string expectedSchedule)) in
  await (ExpectToBeVisible (First scheduleLocator) 10000).

Definition refreshAndExpectAgentSchedule (agentName : string)
  (expectedSchedule : data) : prog unit :=
  await Reload;;
  waitForPageLoad;;
  expectAgentSchedule agentName expectedSchedule.




Definition expectAgentNotVisible (agentName : string) : prog unit :=
  waitForPageLoad;;
  exact_pattern agentName;;
  await (ExpectToHaveCount (agentNameLocator agentName) 0 30000).

Definition confirmDeleteButton : locator :=
  FilterHasText (Within (GetByRole "dialog") (GetByRole "button"))
    (RegExp "delete|confirm" "i").

Definition deleteAgent (agentName : string) : prog unit :=
  exact_pattern agentName;;
  await (Click (menuButton (agentCard agentName)));;
  await (WaitFor (menuItem "delete") visible None);;
  await (Click (menuItem "delete"));;
  await (WaitFor confirmDeleteButton visible None);;
  await (Click confirmDeleteButton);;
  await (WaitForLoadState networkidle);;
  expectAgentNotVisible agentName.

Definition refreshAndExpectAgentNotVisible (agentName : string) : prog unit :=
  await Reload;;
  waitForPageLoad;;
  expectAgentNotVisible agentName.

End AgentsPage.

(** ** The registry [AGENT_CONFIGS] *)

Definition configure_monitor : hook := λ agentName config,
  AgentsPage.setAgentName agentName;;
  AgentsPage.selectApp (config "appID");;
  AgentsPage.verifyAppSelected (config "appID");;
  AgentsPage.setSchedule (config "initialSchedule");;
  AgentsPage.setSlackChannel (config "slackChannel").

Definition configure_deep_research : hook := λ agentName config,
  AgentsPage.setAgentName agentName;;
  AgentsPage.selectApp (config "appID");;
  AgentsPage.verifyAppSelected (config "appID");;
  AgentsPage.setSlackChannel (config "slackChannel").

Definition monitor_entry : obj :=
  <["agentDisplayName" := Data (Str "Monitor app versions changes")]>
  (<["configureAgentSettings" := HookFn configure_monitor]> ∅).

Definition deep_research_entry : obj :=
  <["agentDisplayName" := Data (Str "Deep research analysis")]>
  (<["updatedSchedule" := Data (Str "Weekly on Monday")]>
  (<["configureAgentSettings" := HookFn configure_deep_research]> ∅)).

Definition AGENT_CONFIGS : list obj := [monitor_entry; deep_research_entry].

Definition AGENT_TEST_CONFIGS : list obj := AGENT_TEST_CONFIGS_of AGENT_CONFIGS.

(** ** The generic lifecycle test *)

(** [await test.step(title, body)] *)
Definition test_step (title : string) (body : prog unit) : prog unit :=
  Mark (StepBegin title) (body;; Mark (StepEnd title) (Ret tt)).

Definition select_title (config : obj) : string :=
  "Navigate to agents page and select "
    +:+ to_string (fields config "agentDisplayName").
Definition configure_title : string := "Configure agent with all required settings".
Definition deploy_title : string := "Deploy the agent".
Definition visible_title : string := "Verify agent appears in Your Agents section".
Definition persisted_title : string := "Verify agent persistence after page refresh".
Definition skipped_title : string :=
  "SKIPPED: Execute agent immediately and verify successful run".
Definition modify_title : string := "Modify agent schedule configuration".
Definition schedule_title : string :=
  "Verify schedule update is displayed and persisted".
Definition delete_title : string := "Delete the agent".
Definition deleted_title : string :=
  "Verify agent deletion is complete and persistent".

(** The body of the test generated for one resolved configuration. *)
Definition lifecycle_test (config : obj) : prog unit :=
  agentName ← call_name (get config "getAgentName");
  test_step (select_title config)
    (AgentsPage.selectAgent (fields config "agentDisplayName"));;
  test_step configure_title
    (call_hook (get config "configureAgentSettings") agentName config;;
     await (WaitForLoadState networkidle));;
  test_step deploy_title
    AgentsPage.activateAgent;;
  test_step visible_title
    (AgentsPage.expectAgentVisible agentName);;
  test_step persisted_title
    (AgentsPage.refreshAndExpectAgentVisible agentName);;
  test_step skipped_title
    (Ret tt);;
  test_step modify_title
    (AgentsPage.editAgent agentName;;
     AgentsPage.updateSchedule (fields config "updatedSchedule");;
     AgentsPage.saveChanges);;
  test_step schedule_title
    (AgentsPage.expectAgentSchedule agentName (fields config "updatedSchedule");;
     AgentsPage.refreshAndExpectAgentSchedule agentName
       (fields config "updatedSchedule"));;
  test_step delete_title
    (AgentsPage.deleteAgent agentName);;
  test_step deleted_title
    (AgentsPage.refreshAndExpectAgentNotVisible agentName).

(** ** The lifecycle as the specification words it

    An ordered list of steps, run one after the other: a step starts in the
    world in which the previous one resolved, and a rejected step ends the
    run. *)

Definition step : Type := string * prog unit.

Definition step_order (config : obj) (agentName : string) : list step :=
  [ (select_title config,
      AgentsPage.selectAgent (fields config "agentDisplayName"));
    (configure_title,
      call_hook (get config "configureAgentSettings") agentName config;;
      await (WaitForLoadState networkidle));
    (deploy_title, AgentsPage.activateAgent);
    (visible_title, AgentsPage.expectAgentVisible agentName);
    (persisted_title, AgentsPage.refreshAndExpectAgentVisible agentName);
    (skipped_title, Ret tt);
    (modify_title,
      AgentsPage.editAgent agentName;;
      AgentsPage.updateSchedule (fields config "updatedSchedule");;
      AgentsPage.saveChanges);
    (schedule_title,
      AgentsPage.expectAgentSchedule agentName (fields config "updatedSchedule");;
      AgentsPage.refreshAndExpectAgentSchedule agentName
        (fields config "updatedSchedule"));
    (delete_title, AgentsPage.deleteAgent agentName);
    (deleted_title, AgentsPage.refreshAndExpectAgentNotVisible agentName) ].

Section Sequential.
Context (P : provider).

(** [r] first, then [k] from where [r] stopped, unless [r] was rejected. *)
Definition and_then {A B : Type} (r : result P A)
  (k : A → P.(world) → result P B) : result P B :=
  match r.(returned) with
  | Ok a =>
      let r' := k a r.(final) in
      {| returned := r'.(returned); final := r'.(final);
         trace := r.(trace) ++ r'.(trace) |}
  | Raise e =>
      {| returned := Raise e; final := r.(final); trace := r.(trace) |}
  end.

(** One step: its calls lie between its two markers; a rejected step has
    no end marker. *)
Definition run_step (s : step) (w : P.(world)) : result P unit :=
  let r := run P s.2 w in
  match r.(returned) with
  | Ok _ =>
      {| returned := Ok tt; final := r.(final);
         trace := Marked (StepBegin s.1) :: r.(trace) ++ [Marked (StepEnd s.1)] |}
  | Raise e =>
      {| returned := Raise e; final := r.(final);
         trace := Marked (StepBegin s.1) :: r.(trace) |}
  end.

Fixpoint run_in_order (steps : list step) (w : P.(world)) : result P unit :=
  match steps with
  | [] => {| returned := Ok tt; final := w; trace := [] |}
  | s :: rest => and_then (run_step s w) (λ _, run_in_order rest)
  end.

(** The name is generated, then the steps run in order. *)
Definition sequential_run (config : obj) (w : P.(world)) : result P unit :=
  and_then (run P (call_name (get config "getAgentName")) w)
    (λ agentName, run_in_order (step_order config agentName)).
End Sequential.

Arguments and_then {P A B} r k.

(** ** Auxiliary notions for the statements *)


(** The step boundaries of a trace. *)
Definition markers {P : provider} (t : list (event P)) : list marker :=
  omap (λ e, match e with Marked m => Some m | Called _ _ _ => None end) t.


(** A name without pattern syntax characters. *)
Definition literal (name : string) : Prop :=
  Forall (λ c, is_syntax_character c = false) (list_ascii_of_string name).

Global Instance literal_dec name : Decision (literal name).
Proof. unfold literal. apply _. Defined.

(** Identifier characters: letters, digits and the underscore. *)
Definition is_identifier_char (c : ascii) : bool :=
  let n := N_of_ascii c in
  ((65 <=? n) && (n <=? 90) || (97 <=? n) && (n <=? 122)
   || (48 <=? n) && (n <=? 57) || (n =? 95))%N.

(** The seed normalisation as the specification words it: whitespace and all
    non-identifier characters are stripped. *)
Fixpoint normalized_seed (s : string) : string :=
  match s with
  | EmptyString => EmptyString
  | String c r =>
      if is_identifier_char c then String c (normalized_seed r)
      else normalized_seed r
  end.

(** ** A small provider for examples

    A remote UI reduced to what the lifecycle observes: the name typed into
    the form and the name paragraphs of the agent cards.  Deploying lists
    the typed name, confirming a deletion removes it; every interaction
    completes, every other locator designates one visible element, the
    run-agent response carries [status] and the random source yields [k]. *)

Record ui : Type := { typed : string; listed : list element }.

Definition paragraph (t : string) : element := {| text := t; shown := true |}.

Definition ui_advance (c : call) (w : ui) : ui :=
  match c with
  | Fill l (Str name) =>
      if decide (l = AgentsPage.agentNameTextField)
      then {| typed := name; listed := w.(listed) |} else w
  | Click l =>
      if decide (l = AgentsPage.activateAgentButton)
      then {| typed := w.(typed);
              listed := w.(listed) ++ [paragraph w.(typed)] |}
      else if decide (l = AgentsPage.confirmDeleteButton)
      then {| typed := w.(typed);
              listed := filter (λ e, e.(text) ≠ w.(typed)) w.(listed) |}
      else w
  | _ => w
  end.

Definition ui_reply (status : N) (c : call) : outcome (answer c) :=
  match c return outcome (answer c) with
  | IsChecked _ => Ok true
  | ResponseStatus => Ok status
  | RandomChar => Ok "k"%char
  | _ => Ok tt
  end.

Definition ui_provider (status : N) : provider :=
  {| world := ui;
     query := λ w l,
       if decide (l = Within AgentsPage.cards (GetByRole "paragraph"))
       then w.(listed) else [paragraph ""];
     advance := ui_advance;
     reply := λ c _, ui_reply status c;
     random_char := λ _, "k"%char;
     regexp_engine := λ _ _, None |}.

Definition empty_ui : ui := {| typed := ""; listed := [] |}.

(** ** Entries used as examples *)

(** A display name with characters that are neither whitespace nor
    identifier characters. *)
Definition versioned_entry : obj :=
  <["agentDisplayName" := Data (Str "Weekly report (v2)")]>
  (<["configureAgentSettings" := HookFn configure_monitor]> ∅).

(** An entry that spells out [user: undefined]. *)
Definition undefined_user_entry : obj :=
  <["user" := Data Undefined]> monitor_entry.

(** A listing in which the same name appears on two cards. *)
Definition listed_twice : ui :=
  {| typed := "";
     listed := [paragraph "Foo_AB12CD34"; paragraph "Foo_AB12CD34"] |}.

(** ** Calls of a trace, and calls a program never makes *)

(** The calls of a trace, in order. *)
Definition calls {P : provider} (t : list (event P)) : list call :=
  omap (λ e, match e with Called c _ _ => Some c | Marked _ => None end) t.

(** No path of the program makes a call that [bad] flags. *)
Fixpoint never (bad : call → bool) {A : Type} (p : prog A) : Prop :=
  match p with
  | Ret _ => True
  | Throw _ => True
  | Await c k => bad c = false ∧ ∀ x, never bad (k x)
  | Mark _ k => never bad k
  end.

(** A click on, or a wait for, the schedule select of the form. *)
Definition touches_schedule (c : call) : bool :=
  match c with
  | Click l => bool_decide (l = AgentsPage.scheduleSelect)
  | WaitFor l _ _ => bool_decide (l = AgentsPage.scheduleSelect)
  | _ => false
  end.

(** The calls of [runNowAgent] on the run-agent response. *)
Definition listens_for_response (c : call) : bool :=
  match c with
  | WaitForResponse _ _ => true
  | ResponseStatus => true
  | _ => false
  end.

Definition is_fill (c : call) : bool :=
  match c with
  | Fill _ _ => true
  | _ => false
  end.

(** The two locators of [enableSlack]. *)
Definition slackCheckboxInput : locator :=
  Within (FilterHasText (Locator ".MuiCardContent-root") (Text (Str "Slack")))
    (GetByTestId "checkbox").

Definition slackCheckboxWrapper : locator :=
  Within (FilterHasText (Locator ".MuiCardContent-root") (Text (Str "Slack")))
    (Locator ".MuiCheckbox-root").

(** A string without whitespace. *)
Definition clean (s : string) : Prop :=
  Forall (λ c, is_whitespace c = false) (list_ascii_of_string s).

(** ** The e-mail dialog: probes that do not wait

    [locator.count()] and [locator.isVisible()] answer from the page as it
    is; [hasEmailValidationError] wraps them in [try]/[catch]. *)

Inductive probe : Type :=
| Count (l : locator)
| IsVisible (l : locator).

Definition probe_answer (p : probe) : Type :=
  match p with
  | Count _ => nat
  | IsVisible _ => bool
  end.

Record inspector (P : provider) : Type := {
  (** whether a probe is rejected (closed page, broken selector) *)
  rejected : probe → P.(world) → option exn;
  (** how the page moves while a probe is pending *)
  drift : probe → P.(world) → P.(world);
}.
Arguments rejected {P} i p w.
Arguments drift {P} i p w.

Module EmailDialog.

Definition dialog : locator := GetByRole "dialog".

Definition quoted (s : string) : string :=
  AgentsPage.dquote +:+ s +:+ AgentsPage.dquote.

Definition errorPatterns : list locator :=
  [ Within dialog (Locator ".MuiFormHelperText-root.Mui-error");
    Within dialog (Locator ("[class*=" +:+ quoted "error" +:+ "]"));
    Within dialog (Locator ("[aria-invalid=" +:+ quoted "true" +:+ "]"));
    Within dialog (Locator ".Mui-error");
    Within dialog (Locator "input.Mui-error");
    Within dialog (Locator ("[class*=" +:+ quoted "Error" +:+ "]"));
    Within dialog (Locator "text=/invalid|error|valid email/i");
    Within dialog (Locator ".MuiOutlinedInput-root.Mui-error");
    Within dialog (Locator ("input[aria-invalid=" +:+ quoted "true" +:+ "]")) ].

Section Probes.
Context (P : provider) (I : inspector P).

(** What a probe answers in the world it is answered in: [count()] is the
    number of elements designated, [isVisible()] is [false] when there is
    none. *)
Definition observe (p : probe) (w : P.(world)) : outcome (probe_answer p) :=
  match I.(rejected) p w with
  | Some e => Raise e
  | None =>
      match p return outcome (probe_answer p) with
      | Count l => Ok (length (resolve P w l))
      | IsVisible l =>
          match resolve P w l with
          | [] => Ok false
          | [e] => Ok e.(shown)
          | _ => Raise (Error "strict mode violation")
          end
      end
  end.

Record scanned : Type := {
  found : bool;
  after : P.(world);
  probes : list probe;
}.

Definition probed (ps : list probe) (s : scanned) : scanned :=
  {| found := s.(found); after := s.(after); probes := ps ++ s.(probes) |}.

(** The loop of [hasEmailValidationError] over the patterns left: a
    rejected probe is caught and the loop goes on. *)
Fixpoint scan (patterns : list locator) (w : P.(world)) : scanned :=
  match patterns with
  | [] => {| found := false; after := w; probes := [] |}
  | pattern :: rest =>
      let w1 := I.(drift) (Count pattern) w in
      match observe (Count pattern) w1 with
      | Ok count =>
          if Nat.ltb 0 count then
            let w2 := I.(drift) (IsVisible (First pattern)) w1 in
            match observe (IsVisible (First pattern)) w2 with
            | Ok true =>
                {| found := true; after := w2;
                   probes := [Count pattern; IsVisible (First pattern)] |}
            | Ok false =>
                probed [Count pattern; IsVisible (First pattern)] (scan rest w2)
            | Raise _ =>
                probed [Count pattern; IsVisible (First pattern)] (scan rest w2)
            end
          else probed [Count pattern] (scan rest w1)
      | Raise _ => probed [Count pattern] (scan rest w1)
      end
  end.

Definition hasEmailValidationError (w : P.(world)) : scanned :=
  scan errorPatterns w.

End Probes.

Arguments found {P} s.
Arguments after {P} s.
Arguments probes {P} s.

End EmailDialog.

(** Whether the first element a locator designates is shown. *)
Definition first_shown (P : provider) (w : P.(world)) (l : locator) : bool :=
  match resolve P w l with
  | e :: _ => e.(shown)
  | [] => false
  end.

(** An inspector of a page that stands still and answers every probe. *)
Definition still (P : provider) : inspector P :=
  {| rejected := λ _ _, None; drift := λ _ w, w |}.

(** An inspector of a page on which every probe is rejected. *)
Definition closed (P : provider) : inspector P :=
  {| rejected := λ _ _, Some (Error "Target closed"); drift := λ _ w, w |}.

(** A provider whose dialog holds one element in error state, and whose
    listing is empty. *)
Definition dialog_provider (error_shown : bool) : provider :=
  {| world := unit;
     query := λ _ l,
       if decide (l = Within EmailDialog.dialog (Locator ".Mui-error"))
       then [{| text := "Please enter a valid email address";
                shown := error_shown |}]
       else [];
     advance := λ _ w, w;
     reply := λ c _, ui_reply 200 c;
     random_char := λ _, "k"%char;
     regexp_engine := λ _ _, None |}.

(** ** More entries used as examples *)

(** An entry that spells out [getAgentName: undefined]. *)
Definition undefined_name_entry : obj :=
  <["getAgentName" := Data Undefined]> monitor_entry.

(** An entry with a name function of its own. *)
Definition fixed_name_entry : obj :=
  <["getAgentName" := NameFn (Ret "AppVChanges_fixed")]> monitor_entry.

(** An entry with an extension field. *)
Definition creative_entry : obj :=
  <["creativeType" := Data (Str "video")]> monitor_entry.

(** * Properties *)

(** ** The defaulting engine *)

Lemma apply_defaults_other (config : obj) (k : string) :
  k ≠ "getAgentName" →
  apply_defaults config !! k = spread DEFAULT_CONFIG config !! k.
Proof. intros Hk. unfold apply_defaults. by rewrite lookup_insert_ne. Qed.

Lemma spread_lookup (target source : obj) (k : string) :
  spread target source !! k =
  match source !! k with Some v => Some v | None => target !! k end.
Proof.
  unfold spread. rewrite lookup_union.
  destruct (source !! k), (target !! k); reflexivity.
Qed.

Lemma default_field_cases (F : string) :
  F ∈ default_fields →
  F = "user" ∨ F = "appID" ∨ F = "slackChannel"
  ∨ F = "initialSchedule" ∨ F = "updatedSchedule".
Proof.
  unfold default_fields. rewrite !elem_of_cons, elem_of_nil. tauto.
Qed.

Lemma default_field_has_default (F : string) :
  F ∈ default_fields → F ≠ "getAgentName" ∧ is_Some (DEFAULT_CONFIG !! F).
Proof.
  intros [-> | [-> | [-> | [-> | ->]]]]%default_field_cases;
    split; first [discriminate | by eexists].
Qed.

(** C1.  For every entry of the registry and every field of [DEFAULT_CONFIG]
    ([user], [appID], [slackChannel], [initialSchedule], [updatedSchedule]),
    the resolved configuration has the entry's value when the entry has the
    field and the default otherwise; the merge is the shallow one of
    [{...DEFAULT_CONFIG, ...config}]: apart from [getAgentName], every
    property of the result is read off the spread. *)
Theorem defaults_applied_per_field
  (configs : list obj) (i : nat) (config : obj) (F : string) :
  configs !! i = Some config →
  F ∈ default_fields →
  ∃ resolved : obj,
    AGENT_TEST_CONFIGS_of configs !! i = Some resolved
    ∧ resolved !! F = match config !! F with
                      | Some v => Some v
                      | None => DEFAULT_CONFIG !! F
                      end
    ∧ is_Some (DEFAULT_CONFIG !! F)
    ∧ ∀ k : string, k ≠ "getAgentName" →
        resolved !! k = spread DEFAULT_CONFIG config !! k.
Proof.
  intros Hi HF. exists (apply_defaults config).
  destruct (default_field_has_default F HF) as [Hne Hsome].
  split; [| split; [| split]].
  - unfold AGENT_TEST_CONFIGS_of. by rewrite list_lookup_fmap, Hi.
  - by rewrite apply_defaults_other, spread_lookup.
  - exact Hsome.
  - intros k Hk. by apply apply_defaults_other.
Qed.

(** The second registry entry overrides [updatedSchedule]. *)
Lemma defaults_applied_per_field_witness :
  ∃ resolved : obj,
    AGENT_TEST_CONFIGS_of AGENT_CONFIGS !! 1%nat = Some resolved
    ∧ resolved !! "updatedSchedule"
      = match deep_research_entry !! "updatedSchedule" with
        | Some v => Some v
        | None => DEFAULT_CONFIG !! "updatedSchedule"
        end
    ∧ is_Some (DEFAULT_CONFIG !! "updatedSchedule")
    ∧ ∀ k : string, k ≠ "getAgentName" →
        resolved !! k = spread DEFAULT_CONFIG deep_research_entry !! k.
Proof.
  apply (defaults_applied_per_field AGENT_CONFIGS 1 deep_research_entry
           "updatedSchedule").
  - reflexivity.
  - unfold default_fields. do 4 apply list_elem_of_further. apply list_elem_of_here.
Defined.

(** C10.  An entry that holds a defaultable field with the value [undefined]
    resolves to [undefined] for that field, not to the default: the spread
    lets own properties win whatever their value, so the resolved
    configuration is not fully populated. *)
Theorem explicit_undefined_overrides_default (config : obj) (F : string) :
  F ∈ default_fields →
  config !! F = Some (Data Undefined) →
  apply_defaults config !! F = Some (Data Undefined)
  ∧ apply_defaults config !! F ≠ DEFAULT_CONFIG !! F
  ∧ fields (apply_defaults config) F = Undefined.
Proof.
  intros HF Hu.
  destruct (default_field_has_default F HF) as [Hne Hsome].
  assert (Hr : apply_defaults config !! F = Some (Data Undefined)).
  { by rewrite apply_defaults_other, spread_lookup, Hu. }
  split; [exact Hr | split].
  - rewrite Hr.
    apply default_field_cases in HF as [-> | [-> | [-> | [-> | ->]]]];
      vm_compute; discriminate.
  - unfold fields, get. by rewrite Hr.
Qed.

Lemma explicit_undefined_overrides_default_witness :
  apply_defaults undefined_user_entry !! "user" = Some (Data Undefined)
  ∧ apply_defaults undefined_user_entry !! "user" ≠ DEFAULT_CONFIG !! "user"
  ∧ fields (apply_defaults undefined_user_entry) "user" = Undefined.
Proof.
  apply (explicit_undefined_overrides_default undefined_user_entry "user").
  - unfold default_fields. apply list_elem_of_here.
  - reflexivity.
Defined.

(** ** Running programs *)

Section RunFacts.
Context (P : provider).

Lemma result_eta {A : Type} (r : result P A) :
  {| returned := r.(returned); final := r.(final); trace := r.(trace) |} = r.
Proof. by destruct r. Qed.

Lemma and_then_ext {A B : Type} (r : result P A)
  (k1 k2 : A → P.(world) → result P B) :
  (∀ a w, k1 a w = k2 a w) → and_then r k1 = and_then r k2.
Proof. intros H. unfold and_then. destruct (returned r); [by rewrite H | done]. Qed.

Lemma and_then_logged {A B : Type} (e : event P) (r : result P A)
  (k : A → P.(world) → result P B) :
  and_then (logged P e r) k = logged P e (and_then r k).
Proof. unfold and_then, logged; simpl. by destruct (returned r). Qed.

Lemma run_bind {A B : Type} (p : prog A) (f : A → prog B) (w : P.(world)) :
  run P (p ≫= f) w = and_then (run P p w) (λ a, run P (f a)).
Proof.
  unfold mbind, prog_bind. revert w.
  induction p as [a | e | c k IH | m k IH]; intros w; simpl.
  - unfold and_then; simpl. by rewrite result_eta.
  - reflexivity.
  - destruct (settle P c (advance P c w)) as [x | e]; [| reflexivity].
    by rewrite IH, and_then_logged.
  - by rewrite IH, and_then_logged.
Qed.

Lemma and_then_assoc {A B C : Type} (r : result P A)
  (k : A → P.(world) → result P B) (h : B → P.(world) → result P C) :
  and_then (and_then r k) h = and_then r (λ a w, and_then (k a w) h).
Proof.
  unfold and_then. destruct (returned r) as [a | e]; simpl; [| done].
  destruct (returned (k a (final r))); simpl; by rewrite ?app_assoc.
Qed.

Lemma and_then_ok {A B : Type} (r : result P A)
  (k : A → P.(world) → result P B) (b : B) :
  returned (and_then r k) = Ok b →
  ∃ a, returned r = Ok a
       ∧ returned (k a (final r)) = Ok b
       ∧ trace (and_then r k) = (trace r ++ trace (k a (final r)))%list
       ∧ final (and_then r k) = final (k a (final r)).
Proof.
  unfold and_then. destruct (returned r) as [a | e]; simpl; [| discriminate].
  intros H. by exists a.
Qed.

Lemma and_then_done (r : result P unit) :
  and_then r (λ _ w, {| returned := Ok tt; final := w; trace := [] |}) = r.
Proof.
  unfold and_then. destruct r as [[[] | e] w t]; simpl; by rewrite ?app_nil_r.
Qed.

Lemma run_await_ok (c : call) (x : answer c) (w : P.(world)) :
  returned (run P (await c) w) = Ok x →
  trace (run P (await c) w) = [Called c (Ok x) (advance P c w)]
  ∧ final (run P (await c) w) = advance P c w.
Proof.
  unfold await. simpl. destruct (settle P c (advance P c w)); simpl; [| discriminate].
  by intros [= ->].
Qed.

Lemma count_settles (l : locator) (n : nat) (t : N) (w : P.(world)) :
  settle P (ExpectToHaveCount l n t) w = Ok tt ↔ length (resolve P w l) = n.
Proof.
  unfold settle, check.
  destruct (Nat.eqb_spec (length (resolve P w l)) n); split; congruence.
Qed.

(** *** Steps in order *)

Lemma run_test_step (title : string) (body : prog unit) (w : P.(world)) :
  run P (test_step title body) w = run_step P (title, body) w.
Proof.
  unfold test_step, run_step. simpl. rewrite run_bind.
  unfold and_then, logged. simpl.
  destruct (returned (run P body w)) as [[] | e]; reflexivity.
Qed.

Lemma run_step_ok (s : step) (w : P.(world)) :
  returned (run_step P s w) = Ok tt →
  returned (run P s.2 w) = Ok tt
  ∧ final (run_step P s w) = final (run P s.2 w)
  ∧ trace (run_step P s w)
    = (Marked (StepBegin s.1) :: trace (run P s.2 w) ++ [Marked (StepEnd s.1)])%list.
Proof.
  unfold run_step.
  destruct (returned (run P s.2 w)) as [[] | e]; simpl; [done | discriminate].
Qed.

Lemma run_in_order_app (s1 s2 : list step) (w : P.(world)) :
  run_in_order P (s1 ++ s2) w
  = and_then (run_in_order P s1 w) (λ _, run_in_order P s2).
Proof.
  revert w. induction s1 as [| s0 s1 IH]; intros w; simpl.
  - unfold and_then. simpl. by rewrite result_eta.
  - rewrite and_then_assoc. apply and_then_ext. intros _ w'. apply IH.
Qed.

Lemma lifecycle_test_sequential (config : obj) (w : P.(world)) :
  run P (lifecycle_test config) w = sequential_run P config w.
Proof.
  unfold lifecycle_test, sequential_run. rewrite run_bind.
  apply and_then_ext. intros agentName w1. unfold step_order.
  repeat (rewrite run_bind, run_test_step; simpl run_in_order;
          apply and_then_ext; intros _ ?).
  by rewrite run_test_step, and_then_done.
Qed.

Lemma step_order_ends (config : obj) (agentName : string) :
  ∃ front : list step,
    step_order config agentName
    = (front ++ [ (delete_title, AgentsPage.deleteAgent agentName);
                  (deleted_title,
                    AgentsPage.refreshAndExpectAgentNotVisible agentName) ])%list.
Proof. by exists (take 8 (step_order config agentName)). Qed.

(** C6.  For every resolved configuration the lifecycle test runs its steps
    strictly one after the other in the fixed order select, configure (the
    hook, then a network-idle wait), deploy, verify visible, reload and
    verify visible, edit and update the schedule, verify the schedule and
    verify it again after a reload, delete, reload and verify absent: the
    run of the test body is the run of that ordered list, where a step
    starts in the world in which the previous one resolved and a rejected
    step ends the run.  The run-now step is disabled: its place in the order
    holds an empty body, whose run makes no call. *)
Theorem lifecycle_steps_run_in_order (config : obj) (w : P.(world)) :
  run P (lifecycle_test config) w = sequential_run P config w
  ∧ (∀ agentName,
       (step_order config agentName).*1
       = [ select_title config; configure_title; deploy_title; visible_title;
           persisted_title; skipped_title; modify_title; schedule_title;
           delete_title; deleted_title ])
  ∧ (∀ agentName,
       step_order config agentName !! 1%nat
       = Some (configure_title,
               call_hook (get config "configureAgentSettings") agentName config;;
               await (WaitForLoadState networkidle)))
  ∧ (∀ agentName,
       step_order config agentName !! 5%nat = Some (skipped_title, Ret tt))
  ∧ (∀ w', trace (run_step P (skipped_title, Ret tt) w')
           = [Marked (StepBegin skipped_title); Marked (StepEnd skipped_title)]).
Proof.
  split; [apply lifecycle_test_sequential |]. repeat split.
Qed.

End RunFacts.

(** On the example UI the lifecycle of the first registry entry passes, and
    its step boundaries come in the order above. *)
Example monitor_lifecycle_markers :
  let r := run (ui_provider 200) (lifecycle_test (apply_defaults monitor_entry))
             empty_ui in
  returned r = Ok tt
  ∧ markers (trace r)
    = [ StepBegin "Navigate to agents page and select Monitor app versions changes";
        StepEnd "Navigate to agents page and select Monitor app versions changes";
        StepBegin configure_title; StepEnd configure_title;
        StepBegin deploy_title; StepEnd deploy_title;
        StepBegin visible_title; StepEnd visible_title;
        StepBegin persisted_title; StepEnd persisted_title;
        StepBegin skipped_title; StepEnd skipped_title;
        StepBegin modify_title; StepEnd modify_title;
        StepBegin schedule_title; StepEnd schedule_title;
        StepBegin delete_title; StepEnd delete_title;
        StepBegin deleted_title; StepEnd deleted_title ].
Proof. by vm_compute. Qed.

(** One awaited call from world [w]: name the world it settles in and split
    on whether it resolves. *)
Ltac await_from w w' H :=
  match goal with
  | |- context [settle ?P ?c (advance ?P ?c w)] =>
      set (w' := advance P c w) in *;
      destruct (settle P c w') as [[] | ?] eqn:H; simpl
  end.

(** An event cannot be in a trace none of whose events is the same call. *)
Ltac not_observed :=
  let H := fresh in
  intros H; exfalso; revert H;
  rewrite ?elem_of_cons, elem_of_nil; intuition discriminate.

(** ** Deletion *)

Section Absence.
Context (P : provider).

Lemma expectAgentNotVisible_ok (agentName : string) (w : P.(world)) :
  returned (run P (AgentsPage.expectAgentNotVisible agentName) w) = Ok tt →
  ∃ t w1,
    trace (run P (AgentsPage.expectAgentNotVisible agentName) w)
    = (t ++ [Called (ExpectToHaveCount (AgentsPage.agentNameLocator agentName) 0 30000)
               (Ok tt) w1])%list
    ∧ final (run P (AgentsPage.expectAgentNotVisible agentName) w) = w1
    ∧ resolve P w1 (AgentsPage.agentNameLocator agentName) = [].
Proof.
  unfold AgentsPage.expectAgentNotVisible, AgentsPage.waitForPageLoad,
    AgentsPage.exact_pattern. simpl.
  await_from w w1 H1; [| discriminate].
  await_from w1 w2 H2; [| discriminate].
  await_from w2 w3 H3; [| discriminate].
  intros _. eexists [_; _], _. split; [reflexivity | split; [reflexivity |]].
  apply count_settles in H3. by apply nil_length_inv.
Qed.

Lemma deleteAgent_ok (agentName : string) (w : P.(world)) :
  returned (run P (AgentsPage.deleteAgent agentName) w) = Ok tt →
  ∃ t w1,
    trace (run P (AgentsPage.deleteAgent agentName) w)
    = (t ++ [Called (ExpectToHaveCount (AgentsPage.agentNameLocator agentName) 0 30000)
               (Ok tt) w1])%list
    ∧ final (run P (AgentsPage.deleteAgent agentName) w) = w1
    ∧ resolve P w1 (AgentsPage.agentNameLocator agentName) = [].
Proof.
  unfold AgentsPage.deleteAgent. intros H.
  do 7 (rewrite run_bind in H |- *;
        apply and_then_ok in H as (? & _ & H & Ht & Hf); rewrite Ht, Hf; clear Ht Hf).
  apply expectAgentNotVisible_ok in H as (t & w1 & Ht & Hf & H0).
  rewrite Ht, Hf, !app_assoc. eauto.
Qed.

Lemma refreshAndExpectAgentNotVisible_ok (agentName : string) (w : P.(world)) :
  returned (run P (AgentsPage.refreshAndExpectAgentNotVisible agentName) w) = Ok tt →
  ∃ wr t w2,
    trace (run P (AgentsPage.refreshAndExpectAgentNotVisible agentName) w)
    = (Called Reload (Ok tt) wr
         :: t ++ [Called (ExpectToHaveCount (AgentsPage.agentNameLocator agentName) 0 30000)
                    (Ok tt) w2])%list
    ∧ final (run P (AgentsPage.refreshAndExpectAgentNotVisible agentName) w) = w2
    ∧ resolve P w2 (AgentsPage.agentNameLocator agentName) = [].
Proof.
  unfold AgentsPage.refreshAndExpectAgentNotVisible, AgentsPage.waitForPageLoad.
  intros H.
  rewrite run_bind in H |- *.
  apply and_then_ok in H as (x & Hr & H & Ht & Hf). rewrite Ht, Hf. clear Ht Hf.
  apply run_await_ok in Hr as (Hrt & Hrf). rewrite Hrt, Hrf in *.
  rewrite run_bind in H |- *.
  apply and_then_ok in H as (y & _ & H & Ht & Hf). rewrite Ht, Hf. clear Ht Hf.
  apply expectAgentNotVisible_ok in H as (t & w2 & Ht & Hf & H0).
  rewrite Ht, Hf. destruct x. eexists _, _, w2.
  split; [| done]. simpl. by rewrite app_assoc.
Qed.

(** C7.  In a lifecycle run that passes, the delete step ends with the
    assertion that no name paragraph matches the generated name, made
    before [deleteAgent] returns and holding in the world it was made in;
    the next step reloads the page and makes the same assertion again, and
    it holds again; nothing follows it. *)
Theorem deletion_asserted_twice (config : obj) (w : P.(world)) :
  returned (run P (lifecycle_test config) w) = Ok tt →
  ∃ agentName t0 t1 t2 w1 wr w2,
    returned (run P (call_name (get config "getAgentName")) w) = Ok agentName
    ∧ trace (run P (lifecycle_test config) w)
      = (t0 ++ Marked (StepBegin delete_title)
            :: t1 ++
            [ Called (ExpectToHaveCount (AgentsPage.agentNameLocator agentName) 0 30000)
                (Ok tt) w1;
              Marked (StepEnd delete_title);
              Marked (StepBegin deleted_title);
              Called Reload (Ok tt) wr ]
            ++ t2 ++
            [ Called (ExpectToHaveCount (AgentsPage.agentNameLocator agentName) 0 30000)
                (Ok tt) w2;
              Marked (StepEnd deleted_title) ])%list
    ∧ resolve P w1 (AgentsPage.agentNameLocator agentName) = []
    ∧ resolve P w2 (AgentsPage.agentNameLocator agentName) = []
    ∧ final (run P (lifecycle_test config) w) = w2.
Proof.
  rewrite lifecycle_test_sequential. unfold sequential_run. intros H.
  apply and_then_ok in H as (agentName & Hname & H & Ht & Hf).
  rewrite Ht, Hf. clear Ht Hf.
  generalize dependent (final (run P (call_name (get config "getAgentName")) w)).
  generalize (trace (run P (call_name (get config "getAgentName")) w)).
  intros tn w0.
  destruct (step_order_ends config agentName) as (front & ->).
  rewrite run_in_order_app. intros H.
  apply and_then_ok in H as ([] & _ & H & Ht & Hf). rewrite Ht, Hf. clear Ht Hf.
  generalize dependent (final (run_in_order P front w0)).
  generalize (trace (run_in_order P front w0)).
  intros tf w8. cbn [run_in_order]. intros H.
  apply and_then_ok in H as ([] & Hdel & H & Ht & Hf). rewrite Ht, Hf. clear Ht Hf.
  apply and_then_ok in H as ([] & Hgone & _ & Ht & Hf). rewrite Ht, Hf. clear Ht Hf.
  apply run_step_ok in Hdel as (Hdel & Hdf & Hdt).
  rewrite Hdt, Hdf in *. clear Hdt Hdf.
  apply run_step_ok in Hgone as (Hgone & Hgf & Hgt).
  rewrite Hgt, Hgf. clear Hgt Hgf. cbn [fst snd final trace] in *.
  apply deleteAgent_ok in Hdel as (t1 & w1 & Ht1 & Hf1 & Hz1).
  rewrite Ht1, Hf1 in *. clear Ht1 Hf1.
  apply refreshAndExpectAgentNotVisible_ok in Hgone
    as (wr & t2 & w2 & Ht2 & Hf2 & Hz2).
  rewrite Ht2, Hf2. clear Ht2 Hf2.
  exists agentName, (tn ++ tf)%list, t1, t2, w1, wr, w2.
  split; [exact Hname |]. split; [| done].
  rewrite app_nil_r. repeat (rewrite <- app_assoc; simpl). reflexivity.
Qed.

End Absence.

(** The lifecycle of the first registry entry passes on the example UI. *)
Lemma deletion_asserted_twice_witness :
  returned (run (ui_provider 200) (lifecycle_test (apply_defaults monitor_entry))
              empty_ui) = Ok tt
  ∧ ∃ agentName w1 w2,
      resolve (ui_provider 200) w1 (AgentsPage.agentNameLocator agentName) = []
      ∧ resolve (ui_provider 200) w2 (AgentsPage.agentNameLocator agentName) = [].
Proof.
  assert (H : returned (run (ui_provider 200)
                          (lifecycle_test (apply_defaults monitor_entry)) empty_ui)
              = Ok tt) by (vm_compute; reflexivity).
  split; [exact H |].
  destruct (deletion_asserted_twice (ui_provider 200) _ _ H)
    as (agentName & _ & _ & _ & w1 & _ & w2 & _ & _ & H1 & H2 & _).
  exists agentName, w1, w2. split; assumption.
Defined.

(** ** Run now *)



Section RunNow.
Context (P : provider).





End RunNow.


(** ** Exact-name matching *)

Lemma not_syntax_character (c : ascii) :
  is_syntax_character c = false →
  Ascii.eqb c "$" = false ∧ Ascii.eqb c "." = false.
Proof.
  unfold is_syntax_character. intros H%bool_decide_eq_false.
  split; apply Ascii.eqb_neq; intros ->; apply H; vm_compute; set_solver.
Qed.

Lemma parse_body_literal (name : string) :
  literal name →
  parse_body (name +:+ "$") = Some (Lit <$> list_ascii_of_string name).
Proof.
  unfold literal. induction name as [| c r IH]; intros Hl.
  - reflexivity.
  - apply Forall_cons in Hl as [Hc Hr].
    change (String c r +:+ "$") with (String c (r +:+ "$")).
    cbn [parse_body list_ascii_of_string].
    destruct (not_syntax_character c Hc) as [-> ->]. rewrite Hc, (IH Hr).
    reflexivity.
Qed.

Lemma parse_anchored_literal (name : string) :
  literal name →
  parse_anchored (AgentsPage.exact_source name)
  = Some (Lit <$> list_ascii_of_string name).
Proof.
  intros H. unfold AgentsPage.exact_source. cbn. by apply parse_body_literal.
Qed.

Lemma matches_literal (name t : string) :
  matches (Lit <$> list_ascii_of_string name) t = true ↔ t = name.
Proof.
  revert t. induction name as [| c r IH]; intros [| d t]; simpl;
    try (split; congruence).
  rewrite andb_true_iff, IH, Ascii.eqb_eq.
  split; [intros [-> ->] | intros [= -> ->]]; done.
Qed.

Section Exact.
Context (P : provider).

Lemma regexp_test_literal (name t : string) :
  literal name →
  regexp_test P (AgentsPage.exact_source name) "" t = true ↔ t = name.
Proof.
  intros H. unfold regexp_test. rewrite (parse_anchored_literal name H).
  apply matches_literal.
Qed.

Lemma regexp_valid_literal (name : string) :
  literal name → regexp_valid P (AgentsPage.exact_source name) "" = true.
Proof.
  intros H. unfold regexp_valid. by rewrite (parse_anchored_literal name H).
Qed.

Lemma resolve_name_literal (name : string) (w : P.(world)) :
  literal name →
  resolve P w (AgentsPage.agentNameLocator name)
  = filter (λ e, e.(text) = name)
      (query P w (Within AgentsPage.cards (GetByRole "paragraph"))).
Proof.
  intros H. unfold AgentsPage.agentNameLocator. cbn [resolve].
  apply list_filter_iff. intros e. by apply regexp_test_literal.
Qed.

Lemma to_be_visible_first (es : list element) :
  to_be_visible (take 1 es) = true ↔ ∃ e rest, es = e :: rest ∧ e.(shown) = true.
Proof.
  destruct es as [| e rest]; simpl.
  - split; [discriminate | by intros (? & ? & ? & _)].
  - split; [by eauto | by intros (? & ? & [= <- <-] & ?)].
Qed.

(** C4, as amended.  For a name free of pattern syntax characters, the
    pattern of the verify-created assertion matches a text exactly when the
    text is the whole name (a prefix such as [Foo_AB12] does not match
    [Foo_AB12CD34]), and the assertion passes exactly when the page-load
    wait resolves, at least one name paragraph carries the name, and the
    first of them is visible.  It does not ask for the name to be listed
    once only. *)
Theorem visible_assertion_matches_exact_name (agentName : string) (w : P.(world)) :
  literal agentName →
  let w1 := advance P (WaitForLoadState networkidle) w in
  let w2 := advance P (NewRegExp (AgentsPage.exact_source agentName) "") w1 in
  let w3 := advance P
              (ExpectToBeVisible (First (AgentsPage.agentNameLocator agentName)) 15000)
              w2 in
  (∀ t, regexp_test P (AgentsPage.exact_source agentName) "" t = true ↔ t = agentName)
  ∧ (returned (run P (AgentsPage.expectAgentVisible agentName) w) = Ok tt ↔
     settle P (WaitForLoadState networkidle) w1 = Ok tt
     ∧ ∃ e rest,
         filter (λ e, e.(text) = agentName)
           (query P w3 (Within AgentsPage.cards (GetByRole "paragraph")))
         = e :: rest
         ∧ e.(shown) = true).
Proof.
  intros Hl w1 w2 w3. split; [intros t; by apply regexp_test_literal |].
  rewrite <- (resolve_name_literal agentName w3 Hl), <- to_be_visible_first.
  unfold AgentsPage.expectAgentVisible, AgentsPage.waitForPageLoad,
    AgentsPage.exact_pattern. simpl. fold w1.
  destruct (settle P (WaitForLoadState networkidle) w1) as [[] | e1] eqn:H1; simpl;
    [| split; [discriminate | by intros [? _]]].
  fold w2. unfold settle at 1. rewrite (regexp_valid_literal agentName Hl). simpl.
  fold w3. unfold settle, check. cbn [resolve].
  destruct (to_be_visible _); simpl; split; try done. by intros [_ ?].
Qed.

End Exact.

(** A query for [Foo_AB12] does not match the entity [Foo_AB12CD34]. *)
Lemma visible_assertion_matches_exact_name_witness :
  regexp_test (ui_provider 200) (AgentsPage.exact_source "Foo_AB12") "" "Foo_AB12CD34"
  = true
  ↔ "Foo_AB12CD34" = "Foo_AB12".
Proof.
  apply (visible_assertion_matches_exact_name (ui_provider 200) "Foo_AB12" empty_ui).
  unfold literal. vm_compute. repeat constructor.
Defined.

(** C4, counterexample.  With the name on two cards the assertion passes:
    it does not assert that the name is visible exactly once. *)
Lemma visible_twice_passes :
  returned (run (ui_provider 200) (AgentsPage.expectAgentVisible "Foo_AB12CD34")
              listed_twice) = Ok tt
  ∧ length (resolve (ui_provider 200) listed_twice
              (AgentsPage.agentNameLocator "Foo_AB12CD34")) = 2%nat.
Proof. by vm_compute. Qed.

(** Outside the literal names the match is not exact: [.] stands for any
    character. *)
Lemma dot_matches_any_character :
  regexp_test (ui_provider 200) (AgentsPage.exact_source "Node.js_AB12") ""
    "Nodexjs_AB12" = true.
Proof. reflexivity. Qed.

(** ** Generated names *)

Lemma string_length_app (s1 s2 : string) :
  String.length (s1 +:+ s2) = (String.length s1 + String.length s2)%nat.
Proof.
  induction s1 as [| c r IH]; [done |].
  change (S (String.length (r +:+ s2)) = S (String.length r + String.length s2)).
  by rewrite IH.
Qed.

Section Names.
Context (P : provider).

Lemma generateRandString_returns (n : nat) (w : P.(world)) :
  ∃ suffix, returned (run P (generateRandString n) w) = Ok suffix
            ∧ String.length suffix = n.
Proof.
  revert w. induction n as [| k IH]; intros w.
  - by exists "".
  - set (w1 := advance P RandomChar w).
    set (c := random_char P w1).
    change (returned (run P (generateRandString (S k)) w))
      with (returned (run P (r ← generateRandString k; Ret (String c r)) w1)).
    rewrite run_bind. destruct (IH w1) as (r & Hr & Hlen).
    unfold and_then. rewrite Hr. cbn.
    exists (String c r). split; [reflexivity |]. cbn. by rewrite Hlen.
Qed.

Lemma default_name_returns (s : string) (w : P.(world)) :
  ∃ suffix,
    returned (run P (createDefaultGetAgentName (Str s)) w)
    = Ok (remove_whitespace s +:+ "_" +:+ suffix)
    ∧ String.length suffix = 8.
Proof.
  change (run P (createDefaultGetAgentName (Str s)) w)
    with (run P (suffix ← generateRandString 8;
                 Ret (remove_whitespace s +:+ "_" +:+ suffix)) w).
  rewrite run_bind.
  destruct (generateRandString_returns 8 w) as (suffix & Hs & Hlen).
  unfold and_then. rewrite Hs. cbn. by exists suffix.
Qed.

Lemma default_name_installed (config : obj) :
  truthy (get config "getAgentName") = false →
  get (apply_defaults config) "getAgentName"
  = NameFn (createDefaultGetAgentName (fields config "agentDisplayName")).
Proof.
  intros H. unfold apply_defaults, get at 1. rewrite lookup_insert_eq. simpl.
  unfold or_else. by rewrite H.
Qed.

(** C2, at the failing input.  For the entry with display name
    [Weekly report (v2)] and no [getAgentName], the resolved [getAgentName]
    returns [Weeklyreport(v2)_] followed by the eight random characters:
    the whitespace is gone, the parentheses are kept, whereas the seed with
    all non-identifier characters stripped is [Weeklyreportv2]. *)
Theorem default_name_keeps_special_characters (w : P.(world)) :
  ∃ suffix,
    returned (run P (call_name (get (apply_defaults versioned_entry) "getAgentName")) w)
    = Ok ("Weeklyreport(v2)" +:+ "_" +:+ suffix)
    ∧ String.length suffix = 8
    ∧ normalized_seed "Weekly report (v2)" = "Weeklyreportv2".
Proof.
  rewrite default_name_installed by reflexivity.
  destruct (default_name_returns "Weekly report (v2)" w) as (suffix & H & Hlen).
  exists suffix. split; [exact H | split; [exact Hlen | reflexivity]].
Qed.

(** C8, as amended.  The resolved registry entry for
    [Monitor app versions changes] has the default [appID],
    [initialSchedule], [updatedSchedule] and [slackChannel], and its
    [getAgentName] returns [Monitorappversionschanges], an underscore, and
    an 8-character random suffix. *)
Theorem monitor_entry_resolved (w : P.(world)) :
  ∃ resolved : obj,
    AGENT_TEST_CONFIGS !! 0%nat = Some resolved
    ∧ get resolved "agentDisplayName" = Data (Str "Monitor app versions changes")
    ∧ get resolved "appID" = Data (Str "android.non.organic.regular")
    ∧ get resolved "initialSchedule" = Data (Str "Daily at 6:00 PM")
    ∧ get resolved "updatedSchedule" = Data (Str "Daily at 12:00 PM")
    ∧ get resolved "slackChannel" = Data (Str "rnd-arch-data-availability-poc")
    ∧ ∃ suffix,
        returned (run P (call_name (get resolved "getAgentName")) w)
        = Ok ("Monitorappversionschanges" +:+ "_" +:+ suffix)
        ∧ String.length suffix = 8.
Proof.
  exists (apply_defaults monitor_entry).
  split; [reflexivity |]. do 5 (split; [reflexivity |]).
  rewrite default_name_installed by reflexivity.
  apply (default_name_returns "Monitor app versions changes" w).
Qed.

End Names.

(** The name is a function of the display name and of the characters drawn:
    with a random source that repeats itself, two calls return the same
    name.  Distinct names rest on the random source alone. *)
Example repeated_draws_repeat_the_name :
  let getAgentName := call_name (get (apply_defaults monitor_entry) "getAgentName") in
  returned (run (ui_provider 200)
              (first ← getAgentName; second ← getAgentName;
               Ret (String.eqb first second))
              empty_ui)
  = Ok true.
Proof. by vm_compute. Qed.

(** C8, counterexample.  The generated name is not the display name without
    whitespace followed directly by 8 characters: the separator makes it
    one character longer. *)
Lemma monitor_name_has_separator :
  ∃ name,
    returned (run (ui_provider 200)
                (call_name (get (apply_defaults monitor_entry) "getAgentName"))
                empty_ui)
    = Ok name
    ∧ ¬ ∃ suffix, String.length suffix = 8
                  ∧ name = "Monitorappversionschanges" +:+ suffix.
Proof.
  exists "Monitorappversionschanges_kkkkkkkk". split; [by vm_compute |].
  intros (suffix & Hlen & Hname).
  apply (f_equal String.length) in Hname.
  rewrite string_length_app, Hlen in Hname. vm_compute in Hname. discriminate.
Qed.

(** * Further properties of the code *)

(** ** The defaulting engine *)

Lemma or_else_truthy (a b : value) :
  truthy b = true → truthy (or_else a b) = true.
Proof. intros Hb. unfold or_else. by destruct (truthy a) eqn:Ha. Qed.

Lemma or_else_absorbs (a b c : value) :
  truthy b = true → or_else (or_else a b) c = or_else a b.
Proof. intros Hb. unfold or_else at 1. by rewrite or_else_truthy. Qed.

Lemma resolved_name_lookup (config : obj) :
  apply_defaults config !! "getAgentName"
  = Some (or_else (get config "getAgentName")
            (NameFn (createDefaultGetAgentName (fields config "agentDisplayName")))).
Proof. unfold apply_defaults. by rewrite lookup_insert_eq. Qed.

Lemma default_keys_resolved (config : obj) (k : string) :
  is_Some (DEFAULT_CONFIG !! k) → is_Some (apply_defaults config !! k).
Proof.
  intros Hk. destruct (decide (k = "getAgentName")) as [-> | Hne].
  - rewrite resolved_name_lookup. by eexists.
  - rewrite apply_defaults_other, spread_lookup by done.
    destruct (config !! k); [by eexists | done].
Qed.

(** X1.  Resolving a resolved configuration changes nothing: the defaults
    and the name function installed by a first pass are kept by a second. *)
Theorem apply_defaults_idempotent (config : obj) :
  apply_defaults (apply_defaults config) = apply_defaults config.
Proof.
  apply map_eq. intros k. destruct (decide (k = "getAgentName")) as [-> | Hne].
  - rewrite (resolved_name_lookup (apply_defaults config)).
    unfold get at 1. rewrite resolved_name_lookup. simpl.
    by rewrite or_else_absorbs.
  - rewrite (apply_defaults_other (apply_defaults config)), spread_lookup by done.
    destruct (apply_defaults config !! k) as [v |] eqn:Hk; [done |].
    destruct (DEFAULT_CONFIG !! k) as [d |] eqn:Hd; [| done].
    destruct (default_keys_resolved config k) as [v Hv]; [by eexists |]. congruence.
Qed.

(** X2.  Unlike the data fields, [getAgentName] does not survive as
    [undefined]: an entry in which it is absent, [undefined] or the empty
    string gets the default generator for its display name. *)
Theorem undefined_name_function_replaced (config : obj) :
  (config !! "getAgentName" = None
   ∨ config !! "getAgentName" = Some (Data Undefined)
   ∨ config !! "getAgentName" = Some (Data (Str ""))) →
  get (apply_defaults config) "getAgentName"
  = NameFn (createDefaultGetAgentName (fields config "agentDisplayName")).
Proof.
  intros H. apply default_name_installed. unfold get.
  destruct H as [-> | [-> | ->]]; reflexivity.
Qed.

Lemma undefined_name_function_replaced_witness :
  get (apply_defaults undefined_name_entry) "getAgentName"
  = NameFn (createDefaultGetAgentName (fields undefined_name_entry "agentDisplayName")).
Proof.
  apply (undefined_name_function_replaced undefined_name_entry).
  right. left. reflexivity.
Defined.

(** X3.  A name function supplied by the entry is the one the resolved
    configuration calls: the default generator is not consulted. *)
Theorem own_name_function_kept (config : obj) (f : prog string) :
  config !! "getAgentName" = Some (NameFn f) →
  get (apply_defaults config) "getAgentName" = NameFn f
  ∧ ∀ (P : provider) (w : P.(world)),
      run P (call_name (get (apply_defaults config) "getAgentName")) w = run P f w.
Proof.
  intros H.
  assert (Hg : get (apply_defaults config) "getAgentName" = NameFn f).
  { unfold get at 1. rewrite resolved_name_lookup. unfold get. by rewrite H. }
  split; [exact Hg |]. intros P w. by rewrite Hg.
Qed.

Lemma own_name_function_kept_witness :
  get (apply_defaults fixed_name_entry) "getAgentName" = NameFn (Ret "AppVChanges_fixed")
  ∧ ∀ (P : provider) (w : P.(world)),
      run P (call_name (get (apply_defaults fixed_name_entry) "getAgentName")) w
      = run P (Ret "AppVChanges_fixed") w.
Proof.
  apply (own_name_function_kept fixed_name_entry (Ret "AppVChanges_fixed")).
  reflexivity.
Defined.

(** X4.  A property that is neither a default field nor [getAgentName]
    (an extension field such as [creativeType], the display name, the hook)
    passes through resolution unchanged, and is not invented when the entry
    lacks it. *)
Theorem other_fields_pass_through (config : obj) (k : string) :
  k ∉ default_fields →
  k ≠ "getAgentName" →
  apply_defaults config !! k = config !! k.
Proof.
  intros Hk Hne. rewrite apply_defaults_other, spread_lookup by done.
  destruct (config !! k); [done |].
  unfold DEFAULT_CONFIG. unfold default_fields in Hk.
  rewrite !not_elem_of_cons in Hk. destruct Hk as (? & ? & ? & ? & ? & _).
  by rewrite !lookup_insert_ne, lookup_empty by done.
Qed.

Lemma other_fields_pass_through_witness :
  apply_defaults creative_entry !! "creativeType" = creative_entry !! "creativeType".
Proof.
  apply (other_fields_pass_through creative_entry "creativeType").
  - unfold default_fields. rewrite !not_elem_of_cons.
    repeat split; [discriminate.. | apply not_elem_of_nil].
  - discriminate.
Defined.

(** X5.  The properties of a resolved configuration are those of the entry,
    the five default fields and [getAgentName]: every resolved
    configuration has these six, and nothing else is added. *)
Theorem resolved_keys (config : obj) :
  dom (apply_defaults config)
  = dom config ∪ list_to_set default_fields ∪ {["getAgentName"]}.
Proof.
  unfold apply_defaults, spread. rewrite dom_insert_L, dom_union_L.
  unfold DEFAULT_CONFIG. rewrite !dom_insert_L, dom_empty_L. simpl.
  apply set_eq. intros k.
  rewrite !elem_of_union, !elem_of_singleton, !elem_of_empty. tauto.
Qed.

(** ** The normalisation of the display name *)

(** X6.  What [replace(/\s+/g, '')] returns holds no whitespace. *)
Theorem remove_whitespace_clean (s : string) : clean (remove_whitespace s).
Proof.
  unfold clean. induction s as [| c r IH]; simpl; [constructor |].
  destruct (is_whitespace c) eqn:Hc; simpl; [done | by constructor].
Qed.

(** X7.  The normalisation leaves a string unchanged exactly when the
    string holds no whitespace; every other character, identifier character
    or not, is kept. *)
Theorem remove_whitespace_fixed_point (s : string) :
  remove_whitespace s = s ↔ clean s.
Proof.
  split.
  - intros <-. apply remove_whitespace_clean.
  - unfold clean. induction s as [| c r IH]; simpl; [done |].
    intros [Hc Hr]%Forall_cons. rewrite Hc. f_equal. by apply IH.
Qed.

(** X8.  The normalisation works piece by piece: the prefix of a
    concatenation is the concatenation of the prefixes. *)
Theorem remove_whitespace_app (s1 s2 : string) :
  remove_whitespace (s1 +:+ s2) = remove_whitespace s1 +:+ remove_whitespace s2.
Proof.
  induction s1 as [| c r IH]; [done |].
  change (String c r +:+ s2) with (String c (r +:+ s2)). simpl.
  destruct (is_whitespace c); [exact IH |].
  change (String c (remove_whitespace r) +:+ remove_whitespace s2)
    with (String c (remove_whitespace r +:+ remove_whitespace s2)).
  by rewrite IH.
Qed.

(** ** Calls a program never makes *)

Section Never.
Context (P : provider).

Lemma calls_app (t1 t2 : list (event P)) :
  calls (t1 ++ t2) = (calls t1 ++ calls t2)%list.
Proof. unfold calls. apply omap_app. Qed.

Lemma never_bind (bad : call → bool) {A B : Type} (p : prog A) (f : A → prog B) :
  never bad p → (∀ a, never bad (f a)) → never bad (p ≫= f).
Proof.
  unfold mbind, prog_bind. intros Hp Hf.
  induction p as [a | e | c k IH | m k IH]; simpl in *; auto.
  destruct Hp as [Hc Hk]. split; [exact Hc |]. intros x. by apply IH.
Qed.

Lemma never_run (bad : call → bool) {A : Type} (p : prog A) (w : P.(world)) :
  never bad p → Forall (λ c, bad c = false) (calls (trace (run P p w))).
Proof.
  revert w. induction p as [a | e | c k IH | m k IH]; intros w Hp; simpl in *.
  - constructor.
  - constructor.
  - destruct Hp as [Hc Hk].
    destruct (settle P c (advance P c w)) as [x | e]; simpl.
    + constructor; [exact Hc | by apply IH].
    + by repeat constructor.
  - by apply IH.
Qed.

End Never.

Lemma test_step_never (bad : call → bool) (title : string) (body : prog unit) :
  never bad body → never bad (test_step title body).
Proof.
  intros H. unfold test_step. simpl. apply never_bind; [exact H | done].
Qed.

Lemma selectAgent_quiet (d : data) :
  never listens_for_response (AgentsPage.selectAgent d).
Proof. repeat split. Qed.

Lemma activateAgent_quiet : never listens_for_response AgentsPage.activateAgent.
Proof. repeat split. Qed.

Lemma expectAgentVisible_quiet (n : string) :
  never listens_for_response (AgentsPage.expectAgentVisible n).
Proof. repeat split. Qed.

Lemma refreshAndExpectAgentVisible_quiet (n : string) :
  never listens_for_response (AgentsPage.refreshAndExpectAgentVisible n).
Proof. repeat split. Qed.

Lemma editAgent_quiet (n : string) :
  never listens_for_response (AgentsPage.editAgent n).
Proof. repeat split. Qed.

Lemma updateSchedule_quiet (d : data) :
  never listens_for_response (AgentsPage.updateSchedule d).
Proof. repeat split. Qed.

Lemma saveChanges_quiet : never listens_for_response AgentsPage.saveChanges.
Proof. repeat split. Qed.

Lemma expectAgentSchedule_quiet (n : string) (d : data) :
  never listens_for_response (AgentsPage.expectAgentSchedule n d).
Proof. repeat split. Qed.

Lemma refreshAndExpectAgentSchedule_quiet (n : string) (d : data) :
  never listens_for_response (AgentsPage.refreshAndExpectAgentSchedule n d).
Proof. repeat split. Qed.

Lemma deleteAgent_quiet (n : string) :
  never listens_for_response (AgentsPage.deleteAgent n).
Proof. repeat split. Qed.

Lemma refreshAndExpectAgentNotVisible_quiet (n : string) :
  never listens_for_response (AgentsPage.refreshAndExpectAgentNotVisible n).
Proof. repeat split. Qed.

Lemma monitor_hook_quiet (agentName : string) (config : string → data) :
  never listens_for_response (configure_monitor agentName config).
Proof. repeat split; intros []; repeat split. Qed.

Lemma default_name_quiet (d : data) :
  never listens_for_response (createDefaultGetAgentName d).
Proof. destruct d; repeat split. Qed.

(** X9.  Whatever the page does, a lifecycle run never listens for the
    run-agent response nor reads its status, as long as the name function
    and the hook of the configuration do not: the steps of the test body
    contain no such call. *)
Theorem reference_flow_never_runs_agent
  (P : provider) (config : obj) (w : P.(world)) :
  never listens_for_response (call_name (get config "getAgentName")) →
  (∀ agentName,
     never listens_for_response
       (call_hook (get config "configureAgentSettings") agentName config)) →
  Forall (λ c, listens_for_response c = false)
    (calls (trace (run P (lifecycle_test config) w))).
Proof.
  intros Hname Hhook. apply never_run. unfold lifecycle_test.
  apply never_bind; [exact Hname |]. intros agentName.
  repeat (apply never_bind; [apply test_step_never | intros _]);
    try apply test_step_never.
  - apply selectAgent_quiet.
  - apply never_bind; [apply Hhook | intros _; repeat split].
  - apply activateAgent_quiet.
  - apply expectAgentVisible_quiet.
  - apply refreshAndExpectAgentVisible_quiet.
  - exact I.
  - apply never_bind; [apply editAgent_quiet | intros _].
    apply never_bind; [apply updateSchedule_quiet | intros _; apply saveChanges_quiet].
  - apply never_bind; [apply expectAgentSchedule_quiet | intros _].
    apply refreshAndExpectAgentSchedule_quiet.
  - apply deleteAgent_quiet.
  - apply refreshAndExpectAgentNotVisible_quiet.
Qed.

Lemma reference_flow_never_runs_agent_witness :
  Forall (λ c, listens_for_response c = false)
    (calls (trace (run (ui_provider 200) (lifecycle_test (apply_defaults monitor_entry))
                     empty_ui))).
Proof.
  apply (reference_flow_never_runs_agent (ui_provider 200)).
  - apply default_name_quiet.
  - intros agentName. apply monitor_hook_quiet.
Defined.

(** X10.  The hook of the second registry entry never clicks nor waits for
    the schedule select, whatever the configuration and the page: the agent
    keeps the schedule the form starts with. *)
Theorem deep_research_hook_leaves_schedule
  (P : provider) (agentName : string) (config : string → data) (w : P.(world)) :
  Forall (λ c, touches_schedule c = false)
    (calls (trace (run P (configure_deep_research agentName config) w))).
Proof.
  apply never_run. repeat split; intros []; repeat split.
Qed.

(** ** Slack settings *)

Section Slack.
Context (P : provider).

(** X11.  [enableSlack] clicks the checkbox exactly when [isChecked()]
    answers [false]; when the box is already checked it makes no further
    call and returns. *)
Theorem enableSlack_clicks_only_when_unchecked (w : P.(world)) :
  let w1 := advance P (IsChecked slackCheckboxInput) w in
  (settle P (IsChecked slackCheckboxInput) w1 = Ok true →
   returned (run P AgentsPage.enableSlack w) = Ok tt
   ∧ calls (trace (run P AgentsPage.enableSlack w)) = [IsChecked slackCheckboxInput])
  ∧ (Click slackCheckboxWrapper ∈ calls (trace (run P AgentsPage.enableSlack w))
     ↔ settle P (IsChecked slackCheckboxInput) w1 = Ok false).
Proof.
  intros w1. unfold AgentsPage.enableSlack. simpl.
  fold slackCheckboxInput slackCheckboxWrapper. fold w1.
  destruct (settle P (IsChecked slackCheckboxInput) w1) as [[] | e] eqn:H1; simpl.
  - split; [done |]. split; [| discriminate].
    rewrite !elem_of_cons, elem_of_nil. intros [? | []]; discriminate.
  - split; [discriminate |]. split; [done | intros _].
    set (w2 := advance P (Click slackCheckboxWrapper) w1).
    destruct (settle P (Click slackCheckboxWrapper) w2) as [[] | ?]; simpl.
    + set (w3 := advance P (WaitForLoadState networkidle) w2).
      destruct (settle P (WaitForLoadState networkidle) w3) as [[] | ?]; simpl;
        apply list_elem_of_further, list_elem_of_here.
    + apply list_elem_of_further, list_elem_of_here.
  - split; [discriminate |]. split; [| discriminate].
    rewrite !elem_of_cons, elem_of_nil. intros [? | []]; discriminate.
Qed.

Lemma enableSlack_fills_nothing (w : P.(world)) :
  Forall (λ c, is_fill c = false) (calls (trace (run P AgentsPage.enableSlack w))).
Proof. apply never_run. repeat split; intros []; repeat split. Qed.

(** X12.  [setSlackChannel] fills one field only, the channel field, with
    the channel it was given, and only after the assertion that the field
    is enabled has passed. *)
Theorem slack_channel_filled_only_when_enabled
  (channelName : data) (w : P.(world)) (l : locator) (d : data) :
  Fill l d ∈ calls (trace (run P (AgentsPage.setSlackChannel channelName) w)) →
  l = AgentsPage.slackChannelTextField
  ∧ d = channelName
  ∧ ∃ w', Called (ExpectToBeEnabled AgentsPage.slackChannelTextField 10000) (Ok tt) w'
          ∈ trace (run P (AgentsPage.setSlackChannel channelName) w).
Proof.
  unfold AgentsPage.setSlackChannel. rewrite run_bind. unfold and_then.
  pose proof (enableSlack_fills_nothing w) as Hquiet.
  destruct (returned (run P AgentsPage.enableSlack w)) as [[] | e]; cbn [trace].
  2: { intros Hin. rewrite Forall_forall in Hquiet. by apply Hquiet in Hin. }
  rewrite calls_app, elem_of_app. intros [Hin | Hin].
  { rewrite Forall_forall in Hquiet. by apply Hquiet in Hin. }
  revert Hin.
  generalize (final (run P AgentsPage.enableSlack w)).
  generalize (trace (run P AgentsPage.enableSlack w)). clear Hquiet.
  intros t0 w0. simpl.
  await_from w0 w1 H1; [| not_observed].
  await_from w1 w2 H2; [| not_observed].
  await_from w2 w3 H3; [| not_observed].
  assert (Henabled : ∀ rest,
            Called (ExpectToBeEnabled AgentsPage.slackChannelTextField 10000) (Ok tt) w2
            ∈ (t0 ++ Called (WaitFor AgentsPage.slackChannelTextField visible
                               (Some 30000%N)) (Ok tt) w1
                  :: Called (ExpectToBeEnabled AgentsPage.slackChannelTextField 10000)
                       (Ok tt) w2
                  :: rest)%list).
  { intros rest. apply elem_of_app. right.
    apply list_elem_of_further, list_elem_of_here. }
  await_from w3 w4 H4; [await_from w4 w5 H5 |];
    rewrite !elem_of_cons, elem_of_nil; intros Hin;
    repeat (destruct Hin as [Hin | Hin]; try discriminate Hin); try done;
    injection Hin as -> ->; (split; [done | split; [done |]]); exists w2;
    apply Henabled.
Qed.

End Slack.

Lemma slack_channel_filled_only_when_enabled_witness :
  ∃ w', Called (ExpectToBeEnabled AgentsPage.slackChannelTextField 10000) (Ok tt) w'
        ∈ trace (run (ui_provider 200)
                   (AgentsPage.setSlackChannel (Str "rnd-arch-data-availability-poc"))
                   empty_ui).
Proof.
  apply (slack_channel_filled_only_when_enabled (ui_provider 200)
           (Str "rnd-arch-data-availability-poc") empty_ui
           AgentsPage.slackChannelTextField (Str "rnd-arch-data-availability-poc")).
  vm_compute. do 4 apply list_elem_of_further. apply list_elem_of_here.
Defined.

(** ** Names as patterns *)

Lemma filter_nil_iff {A : Type} (Q : A → Prop) `{!∀ x, Decision (Q x)} (l : list A) :
  filter Q l = [] ↔ Forall (λ x, ¬ Q x) l.
Proof.
  induction l as [| x l IH]; [by split |].
  destruct (decide (Q x)) as [Hx | Hx].
  - rewrite filter_cons_True by done. split; [discriminate |].
    by intros [? _]%Forall_cons.
  - rewrite filter_cons_False by done. rewrite IH, Forall_cons. tauto.
Qed.

Section Patterns.
Context (P : provider).

(** X13.  When [new RegExp] rejects the pattern built from the agent name,
    [deleteAgent] and [editAgent] are rejected with that [SyntaxError]
    before they touch the page: the constructor is their only call. *)
Theorem invalid_pattern_stops_before_any_click (agentName : string) (w : P.(world)) :
  regexp_valid P (AgentsPage.exact_source agentName) "" = false →
  (returned (run P (AgentsPage.deleteAgent agentName) w) = Raise SyntaxError
   ∧ calls (trace (run P (AgentsPage.deleteAgent agentName) w))
     = [NewRegExp (AgentsPage.exact_source agentName) ""])
  ∧ (returned (run P (AgentsPage.editAgent agentName) w) = Raise SyntaxError
     ∧ calls (trace (run P (AgentsPage.editAgent agentName) w))
       = [NewRegExp (AgentsPage.exact_source agentName) ""]).
Proof.
  intros H.
  unfold AgentsPage.deleteAgent, AgentsPage.editAgent, AgentsPage.exact_pattern.
  simpl. unfold settle. rewrite H. simpl. done.
Qed.

(** X14.  For a name free of pattern syntax characters,
    [expectAgentNotVisible] passes exactly when the page-load wait resolves
    and none of the paragraphs that [getByRole('paragraph')] designates
    inside the agent cards has exactly that name as its text. *)
Theorem absence_assertion_matches_exact_name (agentName : string) (w : P.(world)) :
  literal agentName →
  let w1 := advance P (WaitForLoadState networkidle) w in
  let w2 := advance P (NewRegExp (AgentsPage.exact_source agentName) "") w1 in
  let w3 := advance P
              (ExpectToHaveCount (AgentsPage.agentNameLocator agentName) 0 30000) w2 in
  returned (run P (AgentsPage.expectAgentNotVisible agentName) w) = Ok tt ↔
  settle P (WaitForLoadState networkidle) w1 = Ok tt
  ∧ Forall (λ e, e.(text) ≠ agentName)
      (query P w3 (Within AgentsPage.cards (GetByRole "paragraph"))).
Proof.
  intros Hl w1 w2 w3.
  assert (Hcount : settle P (ExpectToHaveCount (AgentsPage.agentNameLocator agentName)
                               0 30000) w3 = Ok tt
                   ↔ Forall (λ e, e.(text) ≠ agentName)
                       (query P w3 (Within AgentsPage.cards (GetByRole "paragraph")))).
  { rewrite count_settles, (resolve_name_literal P agentName w3 Hl).
    rewrite <- filter_nil_iff. split; [apply nil_length_inv | by intros ->]. }
  rewrite <- Hcount. clear Hcount.
  unfold AgentsPage.expectAgentNotVisible, AgentsPage.waitForPageLoad,
    AgentsPage.exact_pattern. simpl. fold w1.
  destruct (settle P (WaitForLoadState networkidle) w1) as [[] | e1] eqn:H1; simpl;
    [| split; [discriminate | by intros [? _]]].
  fold w2. unfold settle at 1. rewrite (regexp_valid_literal P agentName Hl). simpl.
  fold w3.
  destruct (settle P (ExpectToHaveCount _ 0 30000) w3) as [[] | e3]; simpl;
    split; try done. by intros [_ ?].
Qed.

End Patterns.

(** An unterminated group is no pattern. *)
Lemma invalid_pattern_stops_before_any_click_witness :
  returned (run (ui_provider 200) (AgentsPage.deleteAgent "Report(v2_AB12CD34") empty_ui)
  = Raise SyntaxError
  ∧ returned (run (ui_provider 200) (AgentsPage.editAgent "Report(v2_AB12CD34") empty_ui)
    = Raise SyntaxError.
Proof.
  destruct (invalid_pattern_stops_before_any_click (ui_provider 200)
              "Report(v2_AB12CD34" empty_ui)
    as [[Hdelete _] [Hedit _]]; [reflexivity |].
  split; assumption.
Defined.

(** A card that still shows the name makes the absence assertion fail. *)
Lemma absence_assertion_matches_exact_name_witness :
  returned (run (ui_provider 200) (AgentsPage.expectAgentNotVisible "Foo_AB12CD34")
              {| typed := ""; listed := [paragraph "Foo_AB12CD34"] |})
  ≠ Ok tt.
Proof.
  intros H.
  apply (absence_assertion_matches_exact_name (ui_provider 200) "Foo_AB12CD34") in H
    as [_ Hnone].
  - apply Forall_cons in Hnone as [Hne _]. by apply Hne.
  - unfold literal. vm_compute. repeat constructor.
Defined.

(** ** Rejected steps *)

Section FailFast.
Context (P : provider).

Lemma run_step_rejected (s : step) (w : P.(world)) (e : exn) :
  returned (run_step P s w) = Raise e →
  returned (run P s.2 w) = Raise e
  ∧ final (run_step P s w) = final (run P s.2 w)
  ∧ trace (run_step P s w) = Marked (StepBegin s.1) :: trace (run P s.2 w).
Proof.
  unfold run_step.
  destruct (returned (run P s.2 w)) as [[] | e']; simpl; [discriminate |].
  by intros [= ->].
Qed.

Lemma run_in_order_rejected (steps : list step) (w : P.(world)) (e : exn) :
  returned (run_in_order P steps w) = Raise e →
  ∃ passed s rest,
    steps = (passed ++ s :: rest)%list
    ∧ returned (run_in_order P passed w) = Ok tt
    ∧ returned (run P s.2 (final (run_in_order P passed w))) = Raise e
    ∧ trace (run_in_order P steps w)
      = (trace (run_in_order P passed w)
           ++ Marked (StepBegin s.1)
           :: trace (run P s.2 (final (run_in_order P passed w))))%list.
Proof.
  revert w. induction steps as [| s0 steps IH]; intros w; simpl; [discriminate |].
  unfold and_then.
  destruct (returned (run_step P s0 w)) as [[] | e0] eqn:H0; simpl.
  - intros H. apply IH in H as (passed & s & rest & -> & Hok & Hbad & Ht).
    exists (s0 :: passed), s, rest. simpl. unfold and_then. rewrite H0. simpl.
    split; [done |]. split; [exact Hok |]. split; [exact Hbad |].
    by rewrite Ht, app_assoc.
  - intros [= ->]. apply run_step_rejected in H0 as (Hbad & _ & Ht).
    exists [], s0, steps. simpl. done.
Qed.

(** X15.  A lifecycle run that is rejected stops where the error arose and
    hands the error on unchanged: either the name function raised it and
    no step began, or every step before some step passed, the body of that
    step raised it, and the trace ends with the events of that body; the
    step has no end marker and no later step begins. *)
Theorem lifecycle_fails_fast (config : obj) (w : P.(world)) (e : exn) :
  returned (run P (lifecycle_test config) w) = Raise e →
  (returned (run P (call_name (get config "getAgentName")) w) = Raise e
   ∧ trace (run P (lifecycle_test config) w)
     = trace (run P (call_name (get config "getAgentName")) w))
  ∨ ∃ agentName passed s rest,
      returned (run P (call_name (get config "getAgentName")) w) = Ok agentName
      ∧ step_order config agentName = (passed ++ s :: rest)%list
      ∧ let w0 := final (run P (call_name (get config "getAgentName")) w) in
        let w1 := final (run_in_order P passed w0) in
        returned (run_in_order P passed w0) = Ok tt
        ∧ returned (run P s.2 w1) = Raise e
        ∧ trace (run P (lifecycle_test config) w)
          = (trace (run P (call_name (get config "getAgentName")) w)
               ++ trace (run_in_order P passed w0)
               ++ Marked (StepBegin s.1) :: trace (run P s.2 w1))%list.
Proof.
  rewrite lifecycle_test_sequential. unfold sequential_run, and_then.
  destruct (returned (run P (call_name (get config "getAgentName")) w))
    as [agentName | e0] eqn:Hname; cbn [returned trace final].
  - intros H. right.
    apply run_in_order_rejected in H as (passed & s & rest & Hs & Hok & Hbad & Ht).
    exists agentName, passed, s, rest. rewrite Ht. done.
  - intros [= ->]. by left.
Qed.

End FailFast.

(** On a page that never lists the agent, the run is rejected by a step, not
    by the name function. *)
Lemma lifecycle_fails_fast_witness :
  ∃ agentName passed s rest,
    returned (run (dialog_provider true)
                (call_name (get (apply_defaults monitor_entry) "getAgentName")) tt)
    = Ok agentName
    ∧ step_order (apply_defaults monitor_entry) agentName = (passed ++ s :: rest)%list
    ∧ returned (run (dialog_provider true) s.2 tt) = Raise AssertionError.
Proof.
  destruct (lifecycle_fails_fast (dialog_provider true) (apply_defaults monitor_entry)
              tt AssertionError)
    as [[Hname _] | (agentName & passed & s & rest & Hname & Hs & _ & Hbad & _)].
  - vm_compute. reflexivity.
  - vm_compute in Hname. discriminate Hname.
  - exists agentName, passed, s, rest. split; [exact Hname |]. split; [exact Hs |].
    by destruct (final _).
Defined.

(** ** The validation-error scan of the e-mail dialog *)

Section Scan.
Context (P : provider) (I : inspector P).

Lemma scan_undisturbed (patterns : list locator) (w : P.(world)) :
  (∀ p w', rejected I p w' = None) →
  (∀ p w', drift I p w' = w') →
  EmailDialog.found (EmailDialog.scan P I patterns w)
  = existsb (first_shown P w) patterns
  ∧ EmailDialog.after (EmailDialog.scan P I patterns w) = w.
Proof.
  intros Hr Hd. induction patterns as [| l rest IH]; [done |].
  cbn [EmailDialog.scan existsb]. rewrite !Hd. unfold EmailDialog.observe.
  rewrite !Hr. unfold first_shown at 1. cbn [resolve].
  destruct (resolve P w l) as [| e es]; cbn; [exact IH |].
  destruct (shown e); cbn; [done | exact IH].
Qed.

(** X16.  On a page that stands still and answers every probe,
    [hasEmailValidationError] returns [true] exactly when, for one of its
    nine patterns, the first element the pattern designates is visible. *)
Theorem validation_error_iff_some_pattern_shown (w : P.(world)) :
  (∀ p w', rejected I p w' = None) →
  (∀ p w', drift I p w' = w') →
  EmailDialog.found (EmailDialog.hasEmailValidationError P I w)
  = existsb (first_shown P w) EmailDialog.errorPatterns
  ∧ EmailDialog.after (EmailDialog.hasEmailValidationError P I w) = w.
Proof. apply scan_undisturbed. Qed.

Lemma scan_all_rejected (patterns : list locator) (w : P.(world)) :
  (∀ p w', rejected I p w' ≠ None) →
  EmailDialog.found (EmailDialog.scan P I patterns w) = false
  ∧ EmailDialog.probes (EmailDialog.scan P I patterns w) = Count <$> patterns.
Proof.
  intros Hr. revert w. induction patterns as [| l rest IH]; intros w; [done |].
  cbn [EmailDialog.scan].
  assert (Hobs : ∃ e, EmailDialog.observe P I (Count l) (drift I (Count l) w) = Raise e).
  { unfold EmailDialog.observe.
    destruct (rejected I (Count l) (drift I (Count l) w)) as [e |] eqn:He;
      [by exists e | by destruct (Hr _ _ He)]. }
  destruct Hobs as [e ->].
  cbn [EmailDialog.probed EmailDialog.found EmailDialog.probes].
  destruct (IH (drift I (Count l) w)) as [Ha Hp]. rewrite Ha, Hp. done.
Qed.

(** X17.  When every probe is rejected, [hasEmailValidationError] raises
    nothing and returns [false], after trying [count()] on each of the nine
    patterns once: every error is caught. *)
Theorem validation_errors_swallowed (w : P.(world)) :
  (∀ p w', rejected I p w' ≠ None) →
  EmailDialog.found (EmailDialog.hasEmailValidationError P I w) = false
  ∧ EmailDialog.probes (EmailDialog.hasEmailValidationError P I w)
    = Count <$> EmailDialog.errorPatterns.
Proof. apply scan_all_rejected. Qed.

Lemma scan_stops_at_hit (patterns : list locator) (w : P.(world)) :
  if EmailDialog.found (EmailDialog.scan P I patterns w)
  then ∃ front l,
         EmailDialog.probes (EmailDialog.scan P I patterns w)
         = (front ++ [Count l; IsVisible (First l)])%list
         ∧ l ∈ patterns
  else ∀ l, l ∈ patterns → Count l ∈ EmailDialog.probes (EmailDialog.scan P I patterns w).
Proof.
  revert w. induction patterns as [| l rest IH]; intros w.
  { cbn. intros l Hl. by apply elem_of_nil in Hl. }
  assert (Hstep : ∀ ps w',
            if EmailDialog.found (EmailDialog.scan P I rest w')
            then ∃ front l0,
                   (ps ++ EmailDialog.probes (EmailDialog.scan P I rest w')
                    = front ++ [Count l0; IsVisible (First l0)])%list
                   ∧ l0 ∈ l :: rest
            else ∀ l0, l0 ∈ l :: rest → Count l ∈ ps →
                       Count l0
                       ∈ (ps ++ EmailDialog.probes (EmailDialog.scan P I rest w'))%list).
  { intros ps w'. specialize (IH w').
    destruct (EmailDialog.found (EmailDialog.scan P I rest w')).
    - destruct IH as (front & l0 & -> & Hl0). exists (ps ++ front)%list, l0.
      split; [by rewrite app_assoc | by apply list_elem_of_further].
    - intros l0 [-> | Hl0]%elem_of_cons Hps; apply elem_of_app; [by left |].
      right. by apply IH. }
  cbn [EmailDialog.scan].
  destruct (EmailDialog.observe P I (Count l) _) as [n | e].
  - destruct (Nat.ltb 0 n).
    + destruct (EmailDialog.observe P I (IsVisible (First l)) _) as [[] | e].
      * cbn. exists [], l. split; [done | apply list_elem_of_here].
      * cbn [EmailDialog.probed EmailDialog.found EmailDialog.probes].
        specialize (Hstep [Count l; IsVisible (First l)]
          (drift I (IsVisible (First l)) (drift I (Count l) w))).
        destruct (EmailDialog.found (EmailDialog.scan P I rest _)); [exact Hstep |].
        intros l0 Hl0. apply Hstep; [exact Hl0 | apply list_elem_of_here].
      * cbn [EmailDialog.probed EmailDialog.found EmailDialog.probes].
        specialize (Hstep [Count l; IsVisible (First l)]
          (drift I (IsVisible (First l)) (drift I (Count l) w))).
        destruct (EmailDialog.found (EmailDialog.scan P I rest _)); [exact Hstep |].
        intros l0 Hl0. apply Hstep; [exact Hl0 | apply list_elem_of_here].
    + cbn [EmailDialog.probed EmailDialog.found EmailDialog.probes].
      specialize (Hstep [Count l] (drift I (Count l) w)).
      destruct (EmailDialog.found (EmailDialog.scan P I rest _)); [exact Hstep |].
      intros l0 Hl0. apply Hstep; [exact Hl0 | apply list_elem_of_here].
  - cbn [EmailDialog.probed EmailDialog.found EmailDialog.probes].
    specialize (Hstep [Count l] (drift I (Count l) w)).
    destruct (EmailDialog.found (EmailDialog.scan P I rest _)); [exact Hstep |].
    intros l0 Hl0. apply Hstep; [exact Hl0 | apply list_elem_of_here].
Qed.

(** X18.  [hasEmailValidationError] stops at the first hit: when it returns
    [true] its last two probes are the [count()] and the [isVisible()] of
    one pattern and no later pattern is probed; when it returns [false]
    every one of the nine patterns has been counted. *)
Theorem validation_scan_stops_at_first_hit (w : P.(world)) :
  if EmailDialog.found (EmailDialog.hasEmailValidationError P I w)
  then ∃ front l,
         EmailDialog.probes (EmailDialog.hasEmailValidationError P I w)
         = (front ++ [Count l; IsVisible (First l)])%list
         ∧ l ∈ EmailDialog.errorPatterns
  else ∀ l, l ∈ EmailDialog.errorPatterns →
            Count l ∈ EmailDialog.probes (EmailDialog.hasEmailValidationError P I w).
Proof. apply scan_stops_at_hit. Qed.

End Scan.

Lemma validation_error_iff_some_pattern_shown_witness :
  EmailDialog.found
    (EmailDialog.hasEmailValidationError (dialog_provider true) (still _) tt) = true.
Proof.
  destruct (validation_error_iff_some_pattern_shown (dialog_provider true) (still _) tt)
    as [-> _]; [done | done | reflexivity].
Defined.

Lemma validation_errors_swallowed_witness :
  EmailDialog.found
    (EmailDialog.hasEmailValidationError (dialog_provider true) (closed _) tt) = false.
Proof.
  destruct (validation_errors_swallowed (dialog_provider true) (closed _) tt)
    as [-> _]; [done | reflexivity].
Defined.
